(** * sio2jail: the default seccomp policy (src/seccomp/policy/DefaultPolicy.cc)

    A shallow embedding of the rule catalogue built by [DefaultPolicy] and of
    the trace handlers it attaches to rules, followed by the properties of
    the catalogue.  The C++ namespaces [tracer], [action] and [filter] are
    modules; the member [rules_] is threaded explicitly through the builder
    methods. *)

From Stdlib Require Import ZArith List String Bool Lia Permutation.
Import ListNotations.

Open Scope string_scope.
Open Scope list_scope.
Open Scope Z_scope.

(** Constants of <errno.h> and <fcntl.h> (Linux, asm-generic values). *)
Definition EPERM : Z := 1.
Definition EBADF : Z := 9.
Definition ENOTTY : Z := 25.
Definition ESPIPE : Z := 29.
Definition O_RDONLY : Z := 0.
Definition O_WRONLY : Z := 1.
Definition O_RDWR : Z := 2.
Definition O_ACCMODE : Z := 3.

(** An unsigned 64-bit quantity, as a syscall argument slot holds it. *)
Definition u64 (v : Z) : Prop := 0 <= v < 2 ^ 64.

(** ** namespace tracer *)
Module tracer.

Inductive TraceAction : Type := CONTINUE | KILL.

(** Modelled from the spec: the tracee view (the class behind [auto& tracee]
    is declared outside DefaultPolicy.cc).  It identifies one suspended
    thread and exposes the syscall number and the raw argument slots. *)
Record Tracee : Type := mkTracee {
  tid : Z;
  syscallNumber : Z;
  syscallArguments : list Z
}.

Definition getSyscallArgument (t : Tracee) (i : nat) : Z :=
  nth i (syscallArguments t) 0.

(** The body of a trace handler is a computation over the tracee: it either
    returns, or asks the tracee for an argument slot and goes on with the
    value it got. *)
Inductive TraceeM (A : Type) : Type :=
| Return (a : A)
| GetSyscallArgument (i : nat) (k : Z -> TraceeM A).

Arguments Return {A} a.
Arguments GetSyscallArgument {A} i k.

(** Running a body against a tracee gives its result and the list of the
    argument slots it read, in order. *)
Fixpoint run {A : Type} (m : TraceeM A) (t : Tracee) : A * list nat :=
  match m with
  | Return a => (a, [])
  | GetSyscallArgument i k =>
      let (a, reads) := run (k (getSyscallArgument t i)) t in
      (a, i :: reads)
  end.

End tracer.

(** ** namespace action *)
Module action.
Import tracer.

(** A lambda expression handed to [ActionTrace]: the variables of its
    capture list with their initial values, and its body.  A [mutable]
    lambda may assign to its captures, so the body returns the captures as
    it leaves them. *)
Record Handler : Type := mkHandler {
  captures : Type;
  captured : captures;
  body : captures -> TraceeM (TraceAction * captures)
}.

(** [ActionTrace ()] (no handler given) is [ActionTrace None]. *)
Inductive SeccompAction : Type :=
| ActionAllow
| ActionErrno (code : Z)
| ActionKill
| ActionTrace (handler : option Handler).

(** One call of the closure object: the body runs on the current captures
    and the trapped tracee. *)
Definition invoke (h : Handler) (state : captures h) (t : Tracee)
  : TraceAction * captures h :=
  fst (run (body h state) t).

(** The argument slots this call reads from the tracee. *)
Definition reads (h : Handler) (state : captures h) (t : Tracee) : list nat :=
  snd (run (body h state) t).

(** A closure object keeps its captures from one call to the next, and a
    rule has one closure object: every trap of the rule, whatever tracee it
    comes from, calls that object.  [invocations] is the verdict of each
    call of a sequence, the first call starting from the captures as the
    lambda initialises them. *)
Fixpoint invocationsFrom (h : Handler) (state : captures h)
         (traps : list Tracee) : list TraceAction :=
  match traps with
  | [] => []
  | t :: rest =>
      let (verdict, state') := invoke h state t in
      verdict :: invocationsFrom h state' rest
  end.

Definition invocations (h : Handler) (traps : list Tracee) : list TraceAction :=
  invocationsFrom h (captured h) traps.

(** All slots read over a sequence of calls. *)
Fixpoint readsFrom (h : Handler) (state : captures h)
         (traps : list Tracee) : list nat :=
  match traps with
  | [] => []
  | t :: rest =>
      reads h state t ++ readsFrom h (snd (invoke h state t)) rest
  end.

End action.

(** ** namespace filter *)
Module filter.

(** Modelled from the spec: the filter expressions (seccomp/filter is not
    part of DefaultPolicy.cc).  [SyscallArg i] is an argument slot,
    [SyscallArg i & mask] a masked slot; a comparison relates one of them
    to a constant, and filters compose by conjunction. *)
Inductive Operand : Type :=
| SyscallArg (i : nat)
| Masked (i : nat) (mask : Z).

(** Modelled from the spec: the comparison operators of section 3 (equal,
    not-equal, less-than, less-or-equal, greater-than, greater-or-equal; the
    masked equality is [Eq] on a masked slot) and conjunction. *)
Inductive SyscallFilter : Type :=
| Eq (a : Operand) (v : Z)
| Ne (a : Operand) (v : Z)
| Lt (a : Operand) (v : Z)
| Le (a : Operand) (v : Z)
| Gt (a : Operand) (v : Z)
| Ge (a : Operand) (v : Z)
| And (f g : SyscallFilter).

(** Modelled from the spec: the value a comparison looks at, the raw slot
    or the slot under its mask. *)
Definition operand (a : Operand) (args : list Z) : Z :=
  match a with
  | SyscallArg i => nth i args 0
  | Masked i mask => Z.land (nth i args 0) mask
  end.

(** Modelled from the spec: [evaluate] of section 4.1, a pure function of
    the argument values. *)
Fixpoint evaluate (f : SyscallFilter) (args : list Z) : bool :=
  match f with
  | Eq a v => operand a args =? v
  | Ne a v => negb (operand a args =? v)
  | Lt a v => operand a args <? v
  | Le a v => operand a args <=? v
  | Gt a v => operand a args >? v
  | Ge a v => operand a args >=? v
  | And f g => evaluate f args && evaluate g args
  end.

End filter.

Import tracer action filter.

(** ** SeccompRule *)

Record SeccompRule : Type := mkSeccompRule {
  syscall : string;
  ruleAction : SeccompAction;
  ruleFilter : option SyscallFilter
}.

(** The two constructor calls the file uses: [SeccompRule (name, action)] and
    [SeccompRule (name, action, filter)]. *)
Definition rule (name : string) (a : SeccompAction) : SeccompRule :=
  mkSeccompRule name a None.

Definition ruleWhen (name : string) (a : SeccompAction) (f : SyscallFilter)
  : SeccompRule :=
  mkSeccompRule name a (Some f).

(** ** DefaultPolicy *)

(** The member [rules_]; a builder method is a transformer of it. *)
Definition Rules : Type := list SeccompRule.
Definition Builder : Type := Rules -> Rules.

Definition emplace_back (r : SeccompRule) : Builder :=
  fun rules_ => rules_ ++ [r].

(** Statements in sequence, and a range-based [for] over an initializer
    list. *)
Definition seq (b1 b2 : Builder) : Builder := fun rules_ => b2 (b1 rules_).
Notation "b1 ;; b2" := (seq b1 b2) (at level 61, right associativity).
Definition skip : Builder := fun rules_ => rules_.

Fixpoint forEach {A : Type} (xs : list A) (loopBody : A -> Builder) : Builder :=
  match xs with
  | [] => skip
  | x :: rest => loopBody x ;; forEach rest loopBody
  end.

Definition allowSyscalls (syscalls : list string) : Builder :=
  forEach syscalls (fun syscall => emplace_back (rule syscall ActionAllow)).

(** Whether a rule is for one of the listed syscalls. *)
Definition named (names : list string) (r : SeccompRule) : bool :=
  existsb (String.eqb (syscall r)) names.

(** A builder that only extends: it keeps the rules it is given, in their
    order, and puts after them rules that do not depend on them. *)
Definition extends (b : Builder) : Prop :=
  forall rules_ : Rules, b rules_ = rules_ ++ b [].

(** ** Evaluation of a rule list *)

(** Modelled from the spec: the engine that evaluates a policy is outside
    DefaultPolicy.cc.  Section 3: a rule with no predicate matches any
    invocation of its syscall; evaluation is first-match-wins, scanning only
    the rules registered for the invoked syscall name, in registration
    order; the default action applies when no rule matches. *)
Definition rulesFor (name : string) (rules : Rules) : Rules :=
  filter (fun r => String.eqb (syscall r) name) rules.

(** Modelled from the spec: a rule with no predicate matches
    unconditionally for its syscall; otherwise its predicate decides. *)
Definition matches (args : list Z) (r : SeccompRule) : bool :=
  match ruleFilter r with
  | None => true
  | Some f => evaluate f args
  end.

(** Modelled from the spec: the first rule, in registration order, among
    those registered for the syscall, whose predicate holds. *)
Definition firstMatch (rules : Rules) (name : string) (args : list Z)
  : option SeccompRule :=
  find (matches args) (rulesFor name rules).

(** Modelled from the spec: the action of the first matching rule, or the
    default action of the policy when no rule matches. *)
Definition decide (rules : Rules) (defaultAction : SeccompAction)
           (name : string) (args : list Z) : SeccompAction :=
  match firstMatch rules name args with
  | Some r => ruleAction r
  | None => defaultAction
  end.

(** Modelled from the spec: what an action does to the invocation it is
    applied to (section 3).  [Proceeds]: the syscall runs.  [FailsWith code]:
    the syscall does not run and the caller sees it fail with [code].
    [Terminated]: the process is killed.  [Suspended]: the syscall is held
    before it runs, for the tracer to decide. *)
Inductive Outcome : Type :=
| Proceeds
| FailsWith (code : Z)
| Terminated
| Suspended.

(** Modelled from the spec: the outcome of each action (section 3). *)
Definition outcome (a : SeccompAction) : Outcome :=
  match a with
  | ActionAllow => Proceeds
  | ActionErrno code => FailsWith code
  | ActionKill => Terminated
  | ActionTrace _ => Suspended
  end.

(** Modelled from the spec: whether the syscall runs, with its side
    effects, without the tracer being asked. *)
Definition syscallRuns (o : Outcome) : bool :=
  match o with
  | Proceeds => true
  | _ => false
  end.

Section DefaultPolicy.

(** [isSignalValid] is declared outside DefaultPolicy.cc; the policy is
    built over whichever test of the signal number it is. *)
Variable isSignalValid : Z -> bool.

(** The lambda of the [set_thread_area] rule: captures nothing, ignores the
    tracee. *)
Definition setThreadAreaHandler : Handler :=
  mkHandler unit tt (fun _ => Return (CONTINUE, tt)).

(** The lambda of the [execve] rule: [[executed = false] (auto& tracee) mutable]. *)
Definition execveHandler : Handler :=
  mkHandler bool false
    (fun executed =>
       if executed then Return (KILL, executed)
       else Return (CONTINUE, true)).

(** The lambda of the [kill], [tkill] (slot 1) and [tgkill] (slot 2) rules. *)
Definition signalHandler (slot : nat) : Handler :=
  mkHandler unit tt
    (fun _ =>
       GetSyscallArgument slot (fun signal =>
         if isSignalValid signal then Return (CONTINUE, tt)
         else Return (KILL, tt))).

Definition addExecutionControlRules (allowFork : bool) : Builder :=
  allowSyscalls [
      "restart_syscall";
      "getpriority";
      "setpriority";
      "sigaction";
      "sigaltstack";
      "rt_sigaction";
      "rt_sigprocmask";
      "futex";
      "set_tid_address";
      "set_robust_list";
      "getpid";
      "getrandom";
      "sigaltstack";
      "sigsuspend"
    ] ;;
  emplace_back (rule "set_thread_area" (ActionTrace (Some setThreadAreaHandler))) ;;
  emplace_back (rule "execve" (ActionTrace (Some execveHandler))) ;;
  forEach ["kill"; "tkill"] (fun syscall =>
    emplace_back (rule syscall (ActionTrace (Some (signalHandler 1))))) ;;
  emplace_back (rule "tgkill" (ActionTrace (Some (signalHandler 2)))) ;;
  forEach ["exit"; "exit_group"] (fun syscall =>
    emplace_back (rule syscall (ActionTrace None))) ;;
  (if allowFork then allowSyscalls ["fork"] else skip) ;;
  forEach ["prlimit64"] (fun syscall =>
    emplace_back (rule syscall (ActionErrno EPERM))).

Definition addMemoryManagementRules : Builder :=
  allowSyscalls [
      "brk";
      "mmap";
      "mmap2";
      "munmap";
      "mremap";
      "mprotect";
      "arch_prctl"
    ].

Definition addSystemInformationRules : Builder :=
  allowSyscalls [
      "getuid";
      "getgid";
      "geteuid";
      "getegid";
      "getrlimit";
      "ugetrlimit";
      "getcpu";
      "gettid";
      "uname";
      "olduname";
      "oldolduname";
      "sysinfo";
      "clock_gettime";
      "gettimeofday";
      "time"
    ].

Definition addInputOutputRules : Builder :=
  forEach ["write"; "writev"] (fun syscall =>
    emplace_back (ruleWhen syscall ActionAllow (Gt (SyscallArg 0) 0))) ;;
  emplace_back (ruleWhen "dup2" ActionAllow (Ge (SyscallArg 1) 3)) ;;
  allowSyscalls [
      "read";
      "readv";
      "dup";
      "fcntl";
      "fcntl64"
    ] ;;
  emplace_back (rule "ioctl" (ActionErrno ENOTTY)) ;;
  forEach ["lseek"; "_llseek"] (fun syscall =>
    emplace_back (ruleWhen syscall (ActionErrno ESPIPE) (Le (SyscallArg 0) 2)) ;;
    emplace_back (ruleWhen syscall ActionAllow (Ge (SyscallArg 0) 3))).

Definition addFileSystemAccessRules (readOnly : bool) : Builder :=
  allowSyscalls [
      "stat";
      "stat64";
      "fstat";
      "fstat64";
      "lstat";
      "lstat64";
      "listxattr";
      "llistxattr";
      "flistxattr";
      "readlink";
      "access";
      "getdents"
    ] ;;
  emplace_back (ruleWhen "close" ActionAllow (Ge (SyscallArg 0) 3)) ;;
  (if readOnly then
     emplace_back (ruleWhen "open" ActionAllow (Eq (Masked 1 O_RDWR) 0)) ;;
     forEach ["unlink"; "unlinkat"; "symlink"; "mkdir"; "fsetxattr"]
       (fun syscall => emplace_back (rule syscall (ActionErrno EPERM)))
   else
     allowSyscalls [
         "open";
         "unlink";
         "unlinkat";
         "symlink";
         "mkdir"
       ]).

(** The object: its only data member seen in this file is [rules_]. *)
Record DefaultPolicy : Type := mkDefaultPolicy { rules_ : Rules }.

(** The constructor.  It calls [addExecutionControlRules ()] and
    [addFileSystemAccessRules ()] with the default arguments of their
    declarations, which are in the header; they are the two switches
    [allowFork] and [readOnly] here. *)
Definition construct (allowFork readOnly : bool) : DefaultPolicy :=
  mkDefaultPolicy
    ((addExecutionControlRules allowFork ;;
      addMemoryManagementRules ;;
      addSystemInformationRules ;;
      addFileSystemAccessRules readOnly ;;
      addInputOutputRules) []).

(** [getRules] is a [const] member: it returns a reference to [rules_] and
    leaves the object as it is. *)
Definition getRules (this : DefaultPolicy) : Rules := rules_ this.

(** The member functions DefaultPolicy.cc defines, as calls on an object
    that is already constructed: the [const] member [getRules], and the six
    members that are not [const], the five builders and [allowSyscalls],
    with their arguments.  (Which of them a given holder may call is decided
    by the access specifiers of the header.) *)
Inductive MemberCall : Type :=
| GetRules
| AddExecutionControlRules (allowFork : bool)
| AddMemoryManagementRules
| AddSystemInformationRules
| AddFileSystemAccessRules (readOnly : bool)
| AddInputOutputRules
| AllowSyscalls (syscalls : list string).

(** A builder member run on the object: it works on the object's own
    [rules_]. *)
Definition runBuilder (b : Builder) (this : DefaultPolicy) : DefaultPolicy :=
  mkDefaultPolicy (b (rules_ this)).

(** One call: what it returns ([getRules] returns the rules, the other
    members return nothing) and the object as the call leaves it. *)
Definition call (c : MemberCall) (this : DefaultPolicy)
  : option Rules * DefaultPolicy :=
  match c with
  | GetRules => (Some (getRules this), this)
  | AddExecutionControlRules allowFork =>
      (None, runBuilder (addExecutionControlRules allowFork) this)
  | AddMemoryManagementRules =>
      (None, runBuilder addMemoryManagementRules this)
  | AddSystemInformationRules =>
      (None, runBuilder addSystemInformationRules this)
  | AddFileSystemAccessRules readOnly =>
      (None, runBuilder (addFileSystemAccessRules readOnly) this)
  | AddInputOutputRules =>
      (None, runBuilder addInputOutputRules this)
  | AllowSyscalls syscalls =>
      (None, runBuilder (allowSyscalls syscalls) this)
  end.

(** A run of calls on one object: what the [getRules] calls of the run
    returned, in order, and the object at the end. *)
Fixpoint callAll (cs : list MemberCall) (this : DefaultPolicy)
  : list Rules * DefaultPolicy :=
  match cs with
  | [] => ([], this)
  | c :: rest =>
      let (result, this') := call c this in
      let (results, final) := callAll rest this' in
      (match result with
       | Some rules => rules :: results
       | None => results
       end, final)
  end.

(** The rules of the policy built with the two switches. *)
Definition policyRules (allowFork readOnly : bool) : Rules :=
  getRules (construct allowFork readOnly).

(** The rules each builder contributes, in the order the constructor calls
    the builders. *)
Definition groups (allowFork readOnly : bool) : list Rules :=
  [ addExecutionControlRules allowFork [];
    addMemoryManagementRules [];
    addSystemInformationRules [];
    addFileSystemAccessRules readOnly [];
    addInputOutputRules [] ].

End DefaultPolicy.

(** ** Checks on rule lists *)

(** Whether no rule of [g1] is for a syscall that [g2] has a rule for. *)
Definition disjointNames (g1 g2 : Rules) : bool :=
  forallb (fun r => negb (named (map syscall g2) r)) g1.

(** Whether no two lists of [gs] have a rule for the same syscall. *)
Fixpoint pairwiseDisjoint (gs : list Rules) : bool :=
  match gs with
  | [] => true
  | g :: rest => forallb (disjointNames g) rest && pairwiseDisjoint rest
  end.

(** The argument slots a filter looks at, one entry per comparison. *)
Fixpoint filterSlots (f : SyscallFilter) : list nat :=
  let slot (a : Operand) :=
    match a with
    | SyscallArg i => i
    | Masked i _ => i
    end in
  match f with
  | Eq a _ | Ne a _ | Lt a _ | Le a _ | Gt a _ | Ge a _ => [slot a]
  | And f g => filterSlots f ++ filterSlots g
  end.

Definition nonEmpty (l : Rules) : bool :=
  match l with
  | [] => false
  | _ :: _ => true
  end.

(** * Properties *)

Section Properties.

Variable isSignalValid : Z -> bool.

(** ** Trace handlers *)

Lemma execve_after_first (traps : list Tracee) :
  invocationsFrom execveHandler true traps = map (fun _ => KILL) traps.
Proof.
  induction traps as [|t rest IH]; simpl.
  - reflexivity.
  - f_equal. exact IH.
Qed.

Lemma stateless_invocations (lambda : unit -> TraceeM (TraceAction * unit))
      (traps : list Tracee) :
  invocationsFrom (mkHandler unit tt lambda) tt traps
  = map (fun t => fst (fst (run (lambda tt) t))) traps.
Proof.
  induction traps as [|t rest IH]; simpl.
  - reflexivity.
  - unfold invoke; simpl.
    destruct (run (lambda tt) t) as [[verdict []] slots]; simpl.
    f_equal. exact IH.
Qed.

(** C1: the policy has one rule for execve, a trace rule with the
    "executed" handler; over any sequence of traps of that rule, from
    whichever tracees, the first call returns CONTINUE and every later call
    returns KILL, and no call reads an argument of the tracee. *)
Theorem execve_continue_once_then_kill
        (allowFork readOnly : bool) (traps : list Tracee) :
  rulesFor "execve" (policyRules isSignalValid allowFork readOnly)
    = [rule "execve" (ActionTrace (Some execveHandler))]
  /\ invocations execveHandler traps
     = match traps with
       | [] => []
       | _ :: later => CONTINUE :: map (fun _ => KILL) later
       end
  /\ readsFrom execveHandler (captured execveHandler) traps = [].
Proof.
  split; [destruct allowFork, readOnly; reflexivity|].
  split.
  - destruct traps as [|t later]; [reflexivity|].
    unfold invocations; simpl. f_equal. apply execve_after_first.
  - destruct traps as [|t later]; [reflexivity|]. simpl.
    induction later as [|t' later IH]; [reflexivity | exact IH].
Qed.

(** C2: kill and tkill (slot 1) and tgkill (slot 2) each have one rule, a
    trace rule whose handler reads exactly that slot of the trapped tracee
    and returns KILL exactly when [isSignalValid] rejects the value read,
    CONTINUE otherwise; over a sequence of traps each verdict is decided by
    the value of the tracee of that trap alone. *)
Theorem signal_handler_checks_the_tracee
        (allowFork readOnly : bool) (name : string) (slot : nat)
        (Hrule : In (name, slot) [("kill", 1%nat); ("tkill", 1%nat); ("tgkill", 2%nat)])
        (t : Tracee) (traps : list Tracee) :
  rulesFor name (policyRules isSignalValid allowFork readOnly)
    = [rule name (ActionTrace (Some (signalHandler isSignalValid slot)))]
  /\ (fst (invoke (signalHandler isSignalValid slot) tt t) = KILL
      <-> isSignalValid (getSyscallArgument t slot) = false)
  /\ (fst (invoke (signalHandler isSignalValid slot) tt t) = CONTINUE
      <-> isSignalValid (getSyscallArgument t slot) = true)
  /\ reads (signalHandler isSignalValid slot) tt t = [slot]
  /\ invocations (signalHandler isSignalValid slot) traps
     = map (fun trapped =>
              if isSignalValid (getSyscallArgument trapped slot)
              then CONTINUE else KILL) traps.
Proof.
  split.
  { simpl in Hrule.
    destruct Hrule as [E|[E|[E|[]]]]; inversion E; subst;
      destruct allowFork, readOnly; reflexivity. }
  unfold invoke, reads; simpl.
  split; [|split; [|split]].
  - destruct (isSignalValid (getSyscallArgument t slot)); simpl;
      split; intro H; congruence.
  - destruct (isSignalValid (getSyscallArgument t slot)); simpl;
      split; intro H; congruence.
  - destruct (isSignalValid (getSyscallArgument t slot)); reflexivity.
  - unfold invocations, signalHandler; simpl.
    rewrite (stateless_invocations
               (fun _ => GetSyscallArgument slot (fun signal =>
                  if isSignalValid signal then Return (CONTINUE, tt)
                  else Return (KILL, tt)))).
    apply map_ext. intro trapped. simpl.
    destruct (isSignalValid (getSyscallArgument trapped slot)); reflexivity.
Qed.

(** C5: set_thread_area has one rule, a trace rule whose handler returns
    CONTINUE for every tracee and whatever was trapped before, and reads no
    argument slot. *)
Theorem set_thread_area_always_continues
        (allowFork readOnly : bool) (t : Tracee) (traps : list Tracee) :
  rulesFor "set_thread_area" (policyRules isSignalValid allowFork readOnly)
    = [rule "set_thread_area" (ActionTrace (Some setThreadAreaHandler))]
  /\ fst (invoke setThreadAreaHandler tt t) = CONTINUE
  /\ reads setThreadAreaHandler tt t = []
  /\ invocations setThreadAreaHandler traps = map (fun _ => CONTINUE) traps
  /\ ~ In KILL (invocations setThreadAreaHandler traps).
Proof.
  assert (Hall : invocations setThreadAreaHandler traps
                 = map (fun _ => CONTINUE) traps).
  { unfold invocations, setThreadAreaHandler; simpl.
    rewrite (stateless_invocations (fun _ => Return (CONTINUE, tt))).
    reflexivity. }
  split; [destruct allowFork, readOnly; reflexivity|].
  split; [reflexivity|]. split; [reflexivity|]. split; [exact Hall|].
  rewrite Hall. intro H. apply in_map_iff in H.
  destruct H as [x [H _]]. discriminate H.
Qed.

(** ** Rules decided in the kernel *)

Lemma land_accmode_rdwr (flags : Z) :
  Z.land flags O_RDWR = Z.land (Z.land flags O_ACCMODE) O_RDWR.
Proof.
  rewrite <- Z.land_assoc. reflexivity.
Qed.

(** C3: with the read-only switch on, open has the single rule
    [(argument 1 & O_RDWR) == 0 -> Allow]; an invocation is allowed when the
    O_RDWR bit of its flags is clear, which covers the access modes O_RDONLY
    and O_WRONLY, and otherwise no rule matches and the default action of
    the policy applies, as for the access mode O_RDWR. *)
Theorem open_allowed_unless_rdwr
        (allowFork : bool) (defaultAction : SeccompAction) (args : list Z) :
  let rules := policyRules isSignalValid allowFork true in
  let flags := nth 1 args 0 in
  rulesFor "open" rules
    = [ruleWhen "open" ActionAllow (Eq (Masked 1 O_RDWR) 0)]
  /\ decide rules defaultAction "open" args
     = (if Z.land flags O_RDWR =? 0 then ActionAllow else defaultAction)
  /\ (Z.land flags O_ACCMODE = O_RDONLY ->
      decide rules defaultAction "open" args = ActionAllow)
  /\ (Z.land flags O_ACCMODE = O_WRONLY ->
      decide rules defaultAction "open" args = ActionAllow)
  /\ (Z.land flags O_ACCMODE = O_RDWR ->
      firstMatch rules "open" args = None
      /\ decide rules defaultAction "open" args = defaultAction).
Proof.
  intros rules flags.
  assert (Hrules : rulesFor "open" rules
                   = [ruleWhen "open" ActionAllow (Eq (Masked 1 O_RDWR) 0)])
    by (subst rules; destruct allowFork; reflexivity).
  assert (Hfirst : firstMatch rules "open" args
                   = if Z.land flags O_RDWR =? 0
                     then Some (ruleWhen "open" ActionAllow (Eq (Masked 1 O_RDWR) 0))
                     else None).
  { unfold firstMatch. rewrite Hrules. unfold find, matches; simpl.
    fold flags. destruct (Z.land flags O_RDWR =? 0); reflexivity. }
  assert (Hdecide : decide rules defaultAction "open" args
                    = if Z.land flags O_RDWR =? 0 then ActionAllow
                      else defaultAction).
  { unfold decide. rewrite Hfirst.
    destruct (Z.land flags O_RDWR =? 0); reflexivity. }
  split; [exact Hrules|]. split; [exact Hdecide|].
  split; [|split].
  - intro H. rewrite Hdecide, land_accmode_rdwr, H. reflexivity.
  - intro H. rewrite Hdecide, land_accmode_rdwr, H. reflexivity.
  - intro H. rewrite Hdecide, Hfirst, land_accmode_rdwr, H. split; reflexivity.
Qed.

(** C4: write and writev each have the single rule [argument 0 > 0 ->
    Allow]; under the default action ActionErrno EBADF an invocation on
    descriptor 1 is allowed and runs, and an invocation on descriptor 0
    matches no rule, does not run and fails with EBADF. *)
Theorem write_allowed_on_positive_descriptor
        (allowFork readOnly : bool) (name : string)
        (Hname : In name ["write"; "writev"]) (rest : list Z) :
  let rules := policyRules isSignalValid allowFork readOnly in
  rulesFor name rules = [ruleWhen name ActionAllow (Gt (SyscallArg 0) 0)]
  /\ decide rules (ActionErrno EBADF) name (1 :: rest) = ActionAllow
  /\ outcome (decide rules (ActionErrno EBADF) name (1 :: rest)) = Proceeds
  /\ decide rules (ActionErrno EBADF) name (0 :: rest) = ActionErrno EBADF
  /\ outcome (decide rules (ActionErrno EBADF) name (0 :: rest)) = FailsWith EBADF
  /\ syscallRuns (outcome (decide rules (ActionErrno EBADF) name (0 :: rest))) = false
  /\ (forall fd : Z,
        decide rules (ActionErrno EBADF) name (fd :: rest)
        = if 0 <? fd then ActionAllow else ActionErrno EBADF).
Proof.
  intro rules.
  assert (Hrules : rulesFor name rules
                   = [ruleWhen name ActionAllow (Gt (SyscallArg 0) 0)]).
  { subst rules. simpl in Hname.
    destruct Hname as [E|[E|[]]]; subst name;
      destruct allowFork, readOnly; reflexivity. }
  split; [exact Hrules|].
  unfold decide, firstMatch. rewrite Hrules.
  repeat split.
  intro fd. unfold find, matches; simpl.
  rewrite Z.gtb_ltb. destruct (0 <? fd); reflexivity.
Qed.

(** C9: lseek and _llseek each have the two rules [argument 0 <= 2 ->
    ActionErrno ESPIPE] and [argument 0 >= 3 -> Allow], in this order; on an
    unsigned 64-bit descriptor exactly one of the two matches, descriptors
    0 to 2 fail with ESPIPE, larger ones are allowed, and the default
    action is not reached. *)
Theorem lseek_rules_partition_descriptors
        (allowFork readOnly : bool) (name : string)
        (Hname : In name ["lseek"; "_llseek"])
        (defaultAction : SeccompAction) (fd : Z) (rest : list Z)
        (Hfd : u64 fd) :
  let rules := policyRules isSignalValid allowFork readOnly in
  let deny := ruleWhen name (ActionErrno ESPIPE) (Le (SyscallArg 0) 2) in
  let allow := ruleWhen name ActionAllow (Ge (SyscallArg 0) 3) in
  rulesFor name rules = [deny; allow]
  /\ matches (fd :: rest) deny = negb (matches (fd :: rest) allow)
  /\ List.length (filter (matches (fd :: rest)) (rulesFor name rules)) = 1%nat
  /\ (fd <= 2 -> decide rules defaultAction name (fd :: rest) = ActionErrno ESPIPE)
  /\ (3 <= fd -> decide rules defaultAction name (fd :: rest) = ActionAllow)
  /\ (decide rules defaultAction name (fd :: rest) = ActionErrno ESPIPE
      <-> fd = 0 \/ fd = 1 \/ fd = 2)
  /\ firstMatch rules name (fd :: rest) <> None.
Proof.
  intros rules deny allow.
  assert (Hrules : rulesFor name rules = [deny; allow]).
  { subst rules deny allow. simpl in Hname.
    destruct Hname as [E|[E|[]]]; subst name;
      destruct allowFork, readOnly; reflexivity. }
  split; [exact Hrules|].
  unfold decide, firstMatch. rewrite Hrules.
  subst deny allow. unfold matches; simpl.
  rewrite Z.geb_leb.
  unfold u64 in Hfd.
  destruct (Z.leb_spec fd 2) as [Hle|Hgt];
    destruct (Z.leb_spec 3 fd) as [Hge|Hlt]; try lia; simpl;
    repeat split; intros; try lia; try reflexivity; discriminate.
Qed.

(** C10: ioctl has the single rule [ActionErrno ENOTTY] with no predicate;
    whatever the arguments and the default action, the rule matches, the
    syscall does not run and the caller sees ENOTTY. *)
Theorem ioctl_always_fails_with_enotty
        (allowFork readOnly : bool) (defaultAction : SeccompAction)
        (args : list Z) :
  let rules := policyRules isSignalValid allowFork readOnly in
  rulesFor "ioctl" rules = [rule "ioctl" (ActionErrno ENOTTY)]
  /\ ruleFilter (rule "ioctl" (ActionErrno ENOTTY)) = None
  /\ firstMatch rules "ioctl" args = Some (rule "ioctl" (ActionErrno ENOTTY))
  /\ decide rules defaultAction "ioctl" args = ActionErrno ENOTTY
  /\ outcome (decide rules defaultAction "ioctl" args) = FailsWith ENOTTY
  /\ syscallRuns (outcome (decide rules defaultAction "ioctl" args)) = false.
Proof.
  intro rules.
  assert (Hrules : rulesFor "ioctl" rules = [rule "ioctl" (ActionErrno ENOTTY)])
    by (subst rules; destruct allowFork, readOnly; reflexivity).
  split; [exact Hrules|].
  unfold decide, firstMatch. rewrite Hrules.
  repeat split.
Qed.

(** ** The builders and the order of the rules *)

Lemma extends_emplace_back (r : SeccompRule) : extends (emplace_back r).
Proof.
  intro rules_. reflexivity.
Qed.

Lemma extends_skip : extends skip.
Proof.
  intro rules_. unfold skip. rewrite app_nil_r. reflexivity.
Qed.

Lemma extends_seq (b1 b2 : Builder) :
  extends b1 -> extends b2 -> extends (b1 ;; b2).
Proof.
  intros H1 H2 rules_. unfold seq.
  rewrite (H2 (b1 rules_)), (H2 (b1 [])), (H1 rules_).
  rewrite app_assoc. reflexivity.
Qed.

Lemma extends_forEach {A : Type} (xs : list A) (loopBody : A -> Builder) :
  (forall x, extends (loopBody x)) -> extends (forEach xs loopBody).
Proof.
  intro Hbody. induction xs as [|x rest IH]; simpl.
  - apply extends_skip.
  - apply extends_seq; [apply Hbody | exact IH].
Qed.

Lemma extends_allowSyscalls (syscalls : list string) :
  extends (allowSyscalls syscalls).
Proof.
  apply extends_forEach. intro x. apply extends_emplace_back.
Qed.

Create HintDb builders.

#[local] Hint Resolve extends_emplace_back extends_skip extends_seq
  extends_forEach extends_allowSyscalls : builders.

Lemma extends_addExecutionControlRules (allowFork : bool) :
  extends (addExecutionControlRules isSignalValid allowFork).
Proof.
  unfold addExecutionControlRules. destruct allowFork; auto 12 with builders.
Qed.

Lemma extends_addMemoryManagementRules : extends addMemoryManagementRules.
Proof.
  unfold addMemoryManagementRules. auto with builders.
Qed.

Lemma extends_addSystemInformationRules : extends addSystemInformationRules.
Proof.
  unfold addSystemInformationRules. auto with builders.
Qed.

Lemma extends_addFileSystemAccessRules (readOnly : bool) :
  extends (addFileSystemAccessRules readOnly).
Proof.
  unfold addFileSystemAccessRules. destruct readOnly; auto 8 with builders.
Qed.

Lemma extends_addInputOutputRules : extends addInputOutputRules.
Proof.
  unfold addInputOutputRules. auto 10 with builders.
Qed.

Lemma policyRules_groups (allowFork readOnly : bool) :
  policyRules isSignalValid allowFork readOnly
  = List.concat (groups isSignalValid allowFork readOnly).
Proof.
  unfold policyRules, getRules, construct, groups, seq.
  cbn [rules_ List.concat].
  rewrite (extends_addInputOutputRules (addFileSystemAccessRules _ _)),
    (extends_addFileSystemAccessRules _ (addSystemInformationRules _)),
    (extends_addSystemInformationRules (addMemoryManagementRules _)),
    (extends_addMemoryManagementRules (addExecutionControlRules _ _ _)).
  rewrite app_nil_r, <- !app_assoc. reflexivity.
Qed.

Lemma find_app_first {A : Type} (f : A -> bool) (l1 l2 : list A) :
  find f (l1 ++ l2)
  = match find f l1 with Some x => Some x | None => find f l2 end.
Proof.
  induction l1 as [|x l1 IH]; simpl; [reflexivity|].
  destruct (f x); [reflexivity | exact IH].
Qed.

Lemma first_found {A : Type} (found later : option A) :
  found <> None ->
  match found with Some x => Some x | None => later end = found.
Proof.
  destruct found; [reflexivity | contradiction].
Qed.

Lemma rulesFor_app (name : string) (l1 l2 : Rules) :
  rulesFor name (l1 ++ l2) = rulesFor name l1 ++ rulesFor name l2.
Proof.
  unfold rulesFor. apply filter_app.
Qed.

Lemma firstMatch_app (l1 l2 : Rules) (name : string) (args : list Z) :
  firstMatch (l1 ++ l2) name args
  = match firstMatch l1 name args with
    | Some r => Some r
    | None => firstMatch l2 name args
    end.
Proof.
  unfold firstMatch. rewrite rulesFor_app. apply find_app_first.
Qed.

Lemma firstMatch_found (l : Rules) (r : SeccompRule) (args : list Z) :
  In r l -> matches args r = true ->
  firstMatch l (syscall r) args <> None.
Proof.
  intros Hin Hm Hnone. unfold firstMatch in Hnone.
  assert (Hfor : In r (rulesFor (syscall r) l)).
  { unfold rulesFor. apply filter_In. split; [exact Hin|].
    apply String.eqb_refl. }
  rewrite (find_none _ _ Hnone r Hfor) in Hm. discriminate Hm.
Qed.

Lemma in_group_before {A : Type} (gs : list (list A)) (i j : nat) (x : A) :
  (i < j)%nat -> In x (nth i gs []) -> In x (List.concat (firstn j gs)).
Proof.
  revert i j. induction gs as [|g gs IH]; intros i j Hij Hx.
  - destruct i; contradiction.
  - destruct j as [|j]; [lia|]. simpl. apply in_or_app.
    destruct i as [|i]; [left; exact Hx|].
    right. apply (IH i j); [lia | exact Hx].
Qed.

Lemma in_group_from {A : Type} (gs : list (list A)) (j : nat) (y : A) :
  In y (nth j gs []) -> In y (List.concat (skipn j gs)).
Proof.
  revert j. induction gs as [|g gs IH]; intros j Hy.
  - destruct j; contradiction.
  - destruct j as [|j]; simpl.
    + apply in_or_app. left. exact Hy.
    + apply IH. exact Hy.
Qed.

Lemma concat_split_at {A : Type} (gs : list (list A)) (j : nat) :
  List.concat gs = List.concat (firstn j gs) ++ List.concat (skipn j gs).
Proof.
  rewrite <- concat_app, firstn_skipn. reflexivity.
Qed.

(** C6: every builder only extends the rules it is given; the rules of the
    policy are the rules of the execution-control, memory-management,
    system-information, file-system and input/output builders, in this
    order; a rule of an earlier builder stands before every rule of a later
    builder and, when it matches an invocation of its syscall, the first
    match is found without looking at the rules of the later builders. *)
Theorem builders_extend_in_call_order (allowFork readOnly : bool) :
  let rules := policyRules isSignalValid allowFork readOnly in
  let gs := groups isSignalValid allowFork readOnly in
  (extends (addExecutionControlRules isSignalValid allowFork)
   /\ extends addMemoryManagementRules
   /\ extends addSystemInformationRules
   /\ extends (addFileSystemAccessRules readOnly)
   /\ extends addInputOutputRules)
  /\ rules = addExecutionControlRules isSignalValid allowFork []
             ++ addMemoryManagementRules []
             ++ addSystemInformationRules []
             ++ addFileSystemAccessRules readOnly []
             ++ addInputOutputRules []
  /\ (forall (i j : nat) (r1 r2 : SeccompRule),
        (i < j)%nat -> In r1 (nth i gs []) -> In r2 (nth j gs []) ->
        (exists before between after,
            rules = before ++ r1 :: between ++ r2 :: after)
        /\ (forall args, matches args r1 = true ->
              firstMatch rules (syscall r1) args
              = firstMatch (List.concat (firstn j gs)) (syscall r1) args
              /\ firstMatch rules (syscall r1) args <> None)).
Proof.
  intros rules gs.
  assert (Hrules : rules = List.concat gs) by apply policyRules_groups.
  split.
  { repeat split;
      auto using extends_addExecutionControlRules,
        extends_addMemoryManagementRules, extends_addSystemInformationRules,
        extends_addFileSystemAccessRules, extends_addInputOutputRules. }
  split.
  { rewrite Hrules. subst gs. unfold groups. cbn [List.concat].
    rewrite app_nil_r. reflexivity. }
  clearbody rules gs.
  intros i j r1 r2 Hij H1 H2.
  pose proof (in_group_before gs i j r1 Hij H1) as Hearly.
  pose proof (in_group_from gs j r2 H2) as Hlate.
  split.
  - destruct (in_split _ _ Hearly) as [a [b Ha]].
    destruct (in_split _ _ Hlate) as [c [d Hc]].
    exists a, (b ++ c), d.
    rewrite Hrules, (concat_split_at gs j), Ha, Hc.
    rewrite <- !app_assoc. reflexivity.
  - intros args Hm.
    pose proof (firstMatch_found _ r1 args Hearly Hm) as Hfound.
    rewrite Hrules, (concat_split_at gs j), firstMatch_app.
    pose proof (first_found _
                  (firstMatch (List.concat (skipn j gs)) (syscall r1) args)
                  Hfound) as Hfirst.
    split; [exact Hfirst|].
    intro Hnone. apply Hfound. rewrite <- Hnone. symmetry. exact Hfirst.
Qed.

(** ** The two switches *)

Lemma rulesFor_other_names (names : list string) (name : string) (own : Rules) :
  Forall (fun r => In (syscall r) names) own -> ~ In name names ->
  rulesFor name own = [].
Proof.
  intros Hown Hname. induction Hown as [|r own Hr _ IH]; [reflexivity|].
  simpl. destruct (String.eqb_spec (syscall r) name) as [E|_].
  - subst name. contradiction.
  - exact IH.
Qed.

Lemma decide_rulesFor (l1 l2 : Rules) (d : SeccompAction) (name : string)
      (args : list Z) :
  rulesFor name l1 = rulesFor name l2 ->
  decide l1 d name args = decide l2 d name args.
Proof.
  intro H. unfold decide, firstMatch. rewrite H. reflexivity.
Qed.

Lemma named_In (names : list string) (r : SeccompRule) :
  named names r = true <-> In (syscall r) names.
Proof.
  unfold named. rewrite existsb_exists. split.
  - intros [x [Hin E]]. apply String.eqb_eq in E. rewrite E. exact Hin.
  - intro Hin. exists (syscall r). split; [exact Hin | apply String.eqb_refl].
Qed.

Lemma all_named (names : list string) (l : Rules) :
  forallb (named names) l = true ->
  Forall (fun r => In (syscall r) names) l.
Proof.
  intro H. apply Forall_forall. intros r Hr.
  apply named_In. exact (proj1 (forallb_forall _ _) H r Hr).
Qed.

Lemma none_named (names : list string) (l : Rules) :
  forallb (fun r => negb (named names r)) l = true ->
  Forall (fun r => ~ In (syscall r) names) l.
Proof.
  intro H. apply Forall_forall. intros r Hr Hin.
  apply named_In in Hin.
  pose proof (proj1 (forallb_forall _ _) H r Hr) as Hneg.
  simpl in Hneg. rewrite Hin in Hneg. discriminate Hneg.
Qed.

Ltac names_checked :=
  lazymatch goal with
  | |- Forall (fun r => ~ In (syscall r) ?names) ?l =>
      refine (none_named names l _); vm_compute; reflexivity
  | |- Forall (fun r => In (syscall r) ?names) ?l =>
      refine (all_named names l _); vm_compute; reflexivity
  end.

(** C7: the read-only switch changes only a block of rules, all of them for
    open, unlink, unlinkat, symlink, mkdir or fsetxattr, that the
    file-system builder adds after its stat-family and close rules, which
    are the same for both values; the fork switch changes only whether the
    rule [fork -> Allow] is present; the rules before and after either block
    do not depend on the switch, so the rules registered for any other
    syscall, and the decision on its invocations, are the same for both
    values. *)
Theorem switches_change_only_their_rules :
  let fsNames := ["open"; "unlink"; "unlinkat"; "symlink"; "mkdir"; "fsetxattr"] in
  (exists common, forall readOnly, exists own,
      addFileSystemAccessRules readOnly [] = common ++ own
      /\ map syscall common
         = ["stat"; "stat64"; "fstat"; "fstat64"; "lstat"; "lstat64";
            "listxattr"; "llistxattr"; "flistxattr"; "readlink"; "access";
            "getdents"; "close"]
      /\ Forall (fun r => In (syscall r) fsNames) own)
  /\ (forall allowFork, exists before after, forall readOnly, exists own,
        policyRules isSignalValid allowFork readOnly = before ++ own ++ after
        /\ Forall (fun r => In (syscall r) fsNames) own
        /\ Forall (fun r => ~ In (syscall r) fsNames) (before ++ after))
  /\ (forall readOnly, exists before after, forall allowFork,
        policyRules isSignalValid allowFork readOnly
        = before ++ (if allowFork then [rule "fork" ActionAllow] else []) ++ after
        /\ Forall (fun r => syscall r <> "fork") (before ++ after))
  /\ (forall allowFork name defaultAction args,
        ~ In name fsNames ->
        rulesFor name (policyRules isSignalValid allowFork true)
        = rulesFor name (policyRules isSignalValid allowFork false)
        /\ decide (policyRules isSignalValid allowFork true) defaultAction name args
           = decide (policyRules isSignalValid allowFork false) defaultAction name args)
  /\ (forall readOnly name defaultAction args,
        name <> "fork" ->
        rulesFor name (policyRules isSignalValid true readOnly)
        = rulesFor name (policyRules isSignalValid false readOnly)
        /\ decide (policyRules isSignalValid true readOnly) defaultAction name args
           = decide (policyRules isSignalValid false readOnly) defaultAction name args).
Proof.
  intro fsNames.
  assert (Hfs : forall allowFork, exists before after, forall readOnly, exists own,
        policyRules isSignalValid allowFork readOnly = before ++ own ++ after
        /\ Forall (fun r => In (syscall r) fsNames) own
        /\ Forall (fun r => ~ In (syscall r) fsNames) (before ++ after)).
  { intro allowFork.
    exists (addExecutionControlRules isSignalValid allowFork []
            ++ addMemoryManagementRules []
            ++ addSystemInformationRules []
            ++ firstn 13 (addFileSystemAccessRules true [])),
           (addInputOutputRules []).
    intro readOnly. exists (skipn 13 (addFileSystemAccessRules readOnly [])).
    subst fsNames.
    destruct allowFork, readOnly;
      (split; [reflexivity | split; names_checked]). }
  assert (Hfork : forall readOnly, exists before after, forall allowFork,
        policyRules isSignalValid allowFork readOnly
        = before ++ (if allowFork then [rule "fork" ActionAllow] else []) ++ after
        /\ Forall (fun r => syscall r <> "fork") (before ++ after)).
  { intro readOnly.
    exists (firstn 21 (addExecutionControlRules isSignalValid false [])),
           (skipn 21 (policyRules isSignalValid false readOnly)).
    intro allowFork.
    destruct allowFork, readOnly;
      (split; [reflexivity|]);
      apply (Forall_impl _ (P := fun r => ~ In (syscall r) ["fork"]));
      try (intros r Hr E; apply Hr; left; symmetry; exact E);
      names_checked. }
  split; [|split; [exact Hfs | split; [exact Hfork | split]]].
  - exists (firstn 13 (addFileSystemAccessRules true [])).
    intro readOnly. exists (skipn 13 (addFileSystemAccessRules readOnly [])).
    subst fsNames.
    destruct readOnly; (split; [reflexivity | split; [reflexivity | names_checked]]).
  - intros allowFork name defaultAction args Hname.
    assert (Hsame : rulesFor name (policyRules isSignalValid allowFork true)
                    = rulesFor name (policyRules isSignalValid allowFork false)).
    { destruct (Hfs allowFork) as [before [after Hsplit]].
      destruct (Hsplit true) as [own1 [E1 [Hown1 _]]].
      destruct (Hsplit false) as [own2 [E2 [Hown2 _]]].
      rewrite E1, E2, !rulesFor_app.
      rewrite (rulesFor_other_names fsNames name own1 Hown1 Hname).
      rewrite (rulesFor_other_names fsNames name own2 Hown2 Hname).
      reflexivity. }
    split; [exact Hsame | apply decide_rulesFor; exact Hsame].
  - intros readOnly name defaultAction args Hname.
    assert (Hsame : rulesFor name (policyRules isSignalValid true readOnly)
                    = rulesFor name (policyRules isSignalValid false readOnly)).
    { destruct (Hfork readOnly) as [before [after Hsplit]].
      destruct (Hsplit true) as [E1 _]. destruct (Hsplit false) as [E2 _].
      rewrite E1, E2, !rulesFor_app.
      rewrite (rulesFor_other_names ["fork"] name [rule "fork" ActionAllow]).
      - reflexivity.
      - repeat constructor.
      - simpl. intros [E|[]]. apply Hname. symmetry. exact E. }
    split; [exact Hsame | apply decide_rulesFor; exact Hsame].
Qed.

(** ** The constructed object *)

Lemma call_appends (c : MemberCall) (this : DefaultPolicy) :
  (exists added, rules_ (snd (call isSignalValid c this)) = rules_ this ++ added)
  /\ (forall result, fst (call isSignalValid c this) = Some result ->
        result = rules_ this /\ snd (call isSignalValid c this) = this).
Proof.
  assert (Hrun : forall b : Builder, extends b ->
            exists added, b (rules_ this) = rules_ this ++ added).
  { intros b Hb. exists (b []). apply Hb. }
  split.
  - destruct c; simpl.
    + exists []. rewrite app_nil_r. reflexivity.
    + apply Hrun, extends_addExecutionControlRules.
    + apply Hrun, extends_addMemoryManagementRules.
    + apply Hrun, extends_addSystemInformationRules.
    + apply Hrun, extends_addFileSystemAccessRules.
    + apply Hrun, extends_addInputOutputRules.
    + apply Hrun, extends_allowSyscalls.
  - intros result H. destruct c; simpl in H; try discriminate H.
    injection H as <-. split; reflexivity.
Qed.

Lemma callAll_appends (calls : list MemberCall) (this : DefaultPolicy) :
  (exists added,
      rules_ (snd (callAll isSignalValid calls this)) = rules_ this ++ added)
  /\ (forall result, In result (fst (callAll isSignalValid calls this)) ->
        exists added, result = rules_ this ++ added).
Proof.
  revert this. induction calls as [|c rest IH]; intro this; simpl.
  - split; [exists []; rewrite app_nil_r; reflexivity | intros result []].
  - destruct (call_appends c this) as [[a1 Ha1] Hres].
    destruct (call isSignalValid c this) as [result this'] eqn:Ecall.
    simpl in Ha1, Hres.
    destruct (IH this') as [[a2 Ha2] Hin].
    destruct (callAll isSignalValid rest this') as [results final] eqn:Erest.
    simpl in Ha2, Hin. simpl. split.
    + exists (a1 ++ a2). rewrite Ha2, Ha1, app_assoc. reflexivity.
    + assert (Hlater : forall r, In r results ->
                exists added, r = rules_ this ++ added).
      { intros r Hr. destruct (Hin r Hr) as [a3 Ha3].
        exists (a1 ++ a3). rewrite Ha3, Ha1, app_assoc. reflexivity. }
      intros r Hr. destruct result as [returned|]; [|exact (Hlater r Hr)].
      destruct Hr as [E|Hr]; [|exact (Hlater r Hr)].
      subst r. destruct (Hres returned eq_refl) as [E _].
      exists []. rewrite app_nil_r. exact E.
Qed.

Lemma callAll_getRules_only (calls : list MemberCall) (this : DefaultPolicy) :
  Forall (fun c => c = GetRules) calls ->
  callAll isSignalValid calls this = (map (fun _ => getRules this) calls, this).
Proof.
  induction 1 as [|c rest Hc _ IH]; simpl; [reflexivity|].
  subst c. simpl. rewrite IH. reflexivity.
Qed.


End Properties.

(** * The theorems at concrete inputs *)

(** A tgkill trap whose slot 2 holds 99, with signals 1 to 64 valid. *)
Lemma signal_handler_checks_the_tracee_witness :
  In ("tgkill", 2%nat) [("kill", 1%nat); ("tkill", 1%nat); ("tgkill", 2%nat)]
  /\ fst (invoke (signalHandler (fun s => (0 <? s) && (s <? 65)) 2) tt
            (mkTracee 7 234 [7; 7; 99])) = KILL.
Proof.
  assert (H : In ("tgkill", 2%nat)
                 [("kill", 1%nat); ("tkill", 1%nat); ("tgkill", 2%nat)])
    by (simpl; auto).
  split; [exact H|].
  apply (proj2 (proj1 (proj2
    (signal_handler_checks_the_tracee (fun s => (0 <? s) && (s <? 65))
       false true "tgkill" 2 H (mkTracee 7 234 [7; 7; 99]) [])))).
  reflexivity.
Defined.

(** open with flags O_WRONLY | O_CREAT (0101 octal) on a read-only policy. *)
Lemma open_allowed_unless_rdwr_witness :
  Z.land 65 O_ACCMODE = O_WRONLY
  /\ decide (policyRules (fun _ => true) false true) ActionKill "open" [0; 65; 420]
     = ActionAllow.
Proof.
  assert (H : Z.land (nth 1 [0; 65; 420] 0) O_ACCMODE = O_WRONLY) by reflexivity.
  split; [exact H|].
  exact (proj1 (proj2 (proj2 (proj2
    (open_allowed_unless_rdwr (fun _ => true) false ActionKill [0; 65; 420])))) H).
Defined.

(** writev on descriptor 0. *)
Lemma write_allowed_on_positive_descriptor_witness :
  In "writev" ["write"; "writev"]
  /\ decide (policyRules (fun _ => true) false true) (ActionErrno EBADF)
       "writev" [0; 4096; 1]
     = ActionErrno EBADF.
Proof.
  assert (H : In "writev" ["write"; "writev"]) by (simpl; auto).
  split; [exact H|].
  exact (proj1 (proj2 (proj2 (proj2
    (write_allowed_on_positive_descriptor (fun _ => true) false true
       "writev" H [4096; 1]))))).
Defined.

(** _llseek on descriptor 2. *)
Lemma lseek_rules_partition_descriptors_witness :
  In "_llseek" ["lseek"; "_llseek"] /\ u64 2
  /\ decide (policyRules (fun _ => true) true false) ActionKill "_llseek" [2; 0; 0]
     = ActionErrno ESPIPE.
Proof.
  assert (Hname : In "_llseek" ["lseek"; "_llseek"]) by (simpl; auto).
  assert (Hfd : u64 2) by (unfold u64; lia).
  split; [exact Hname|]. split; [exact Hfd|].
  apply (proj1 (proj2 (proj2 (proj2
    (lseek_rules_partition_descriptors (fun _ => true) true false
       "_llseek" Hname ActionKill 2 [0; 0] Hfd))))).
  lia.
Defined.

(** getpid, of the execution-control builder, against ioctl, of the
    input/output builder. *)
Lemma builders_extend_in_call_order_witness :
  exists before between after,
    policyRules (fun _ => true) false true
    = before ++ rule "getpid" ActionAllow
        :: between ++ rule "ioctl" (ActionErrno ENOTTY) :: after.
Proof.
  refine (proj1 (proj2 (proj2
    (builders_extend_in_call_order (fun _ => true) false true))
    0%nat 4%nat (rule "getpid" ActionAllow) (rule "ioctl" (ActionErrno ENOTTY))
    _ _ _)).
  - lia.
  - simpl. auto 20.
  - simpl. auto 20.
Defined.

(** read is decided alike with the file system read-only or not. *)
Lemma switches_change_only_their_rules_witness :
  ~ In "read" ["open"; "unlink"; "unlinkat"; "symlink"; "mkdir"; "fsetxattr"]
  /\ decide (policyRules (fun _ => true) false true) ActionKill "read" [0; 0; 1]
     = decide (policyRules (fun _ => true) false false) ActionKill "read" [0; 0; 1].
Proof.
  assert (H : ~ In "read"
                ["open"; "unlink"; "unlinkat"; "symlink"; "mkdir"; "fsetxattr"])
    by (simpl; intuition discriminate).
  split; [exact H|].
  exact (proj2
    (proj1 (proj2 (proj2 (proj2
       (switches_change_only_their_rules (fun _ => true)))))
       false "read" ActionKill [0; 0; 1] H)).
Defined.



(** * Further properties of the builders *)

Section Builders.

Variable isSignalValid : Z -> bool.

Lemma allowSyscalls_map (syscalls : list string) (rules_ : Rules) :
  allowSyscalls syscalls rules_
  = rules_ ++ map (fun name => rule name ActionAllow) syscalls.
Proof.
  revert rules_. induction syscalls as [|name rest IH]; intro rules_.
  - simpl. unfold skip. rewrite app_nil_r. reflexivity.
  - change (allowSyscalls (name :: rest) rules_)
      with (allowSyscalls rest (emplace_back (rule name ActionAllow) rules_)).
    rewrite IH. unfold emplace_back. rewrite <- app_assoc. reflexivity.
Qed.

(** X1: allowSyscalls keeps the rules it finds and puts after them one
    unconditional Allow rule per listed name, in the order of the list and
    with repeated names repeated; nothing for an empty list; a list in two
    parts is two calls in a row. *)
Theorem allowSyscalls_appends_one_rule_per_name
        (syscalls more : list string) (rules_ : Rules) :
  allowSyscalls syscalls rules_
  = rules_ ++ map (fun name => rule name ActionAllow) syscalls
  /\ allowSyscalls [] rules_ = rules_
  /\ map syscall (allowSyscalls syscalls rules_) = map syscall rules_ ++ syscalls
  /\ List.length (allowSyscalls syscalls rules_)
     = (List.length rules_ + List.length syscalls)%nat
  /\ allowSyscalls (syscalls ++ more) rules_
     = (allowSyscalls syscalls ;; allowSyscalls more) rules_.
Proof.
  split; [apply allowSyscalls_map|].
  split; [reflexivity|].
  split.
  { rewrite allowSyscalls_map, map_app, map_map. simpl.
    rewrite map_id. reflexivity. }
  split.
  { rewrite allowSyscalls_map, length_app, length_map. reflexivity. }
  unfold seq. rewrite !allowSyscalls_map, map_app, app_assoc. reflexivity.
Qed.

Lemma firstMatch_allowed (syscalls : list string) (name : string)
      (args : list Z) :
  firstMatch (map (fun s => rule s ActionAllow) syscalls) name args
  = if existsb (String.eqb name) syscalls
    then Some (rule name ActionAllow) else None.
Proof.
  unfold firstMatch. induction syscalls as [|s rest IH]; [reflexivity|].
  simpl. rewrite (String.eqb_sym name s).
  destruct (String.eqb_spec s name) as [E|_].
  - subst s. reflexivity.
  - exact IH.
Qed.

(** X2: after allowSyscalls, an invocation that an earlier rule matches keeps
    the action of that rule; one that no earlier rule matches is allowed when
    its syscall is in the list, whatever its arguments, and gets the default
    action otherwise.  So the order of the list and repeated names in it
    change no decision. *)
Theorem allowSyscalls_decides_after_earlier_rules
        (syscalls : list string) (rules_ : Rules)
        (defaultAction : SeccompAction) (name : string) (args : list Z) :
  decide (allowSyscalls syscalls rules_) defaultAction name args
  = match firstMatch rules_ name args with
    | Some r => ruleAction r
    | None => if existsb (String.eqb name) syscalls
              then ActionAllow else defaultAction
    end.
Proof.
  unfold decide. rewrite allowSyscalls_map, firstMatch_app, firstMatch_allowed.
  destruct (firstMatch rules_ name args) as [r|]; [reflexivity|].
  destruct (existsb (String.eqb name) syscalls); reflexivity.
Qed.

Lemma extends_keeps_first_match (b : Builder) (rules_ : Rules)
      (name : string) (args : list Z) (r : SeccompRule) :
  extends b -> firstMatch rules_ name args = Some r ->
  firstMatch (b rules_) name args = Some r.
Proof.
  intros Hb Hfirst. rewrite (Hb rules_), firstMatch_app, Hfirst. reflexivity.
Qed.

(** X3: whatever rules a policy already has, none of the five builders
    takes an invocation away from the rule that decides it: if a rule is
    the first match before the builder runs, it is the first match after,
    and the decision is its action. *)
Theorem builders_keep_the_deciding_rule
        (allowFork readOnly : bool) (rules_ : Rules)
        (defaultAction : SeccompAction) (name : string) (args : list Z)
        (r : SeccompRule)
        (Hfirst : firstMatch rules_ name args = Some r) :
  Forall (fun b : Builder =>
            firstMatch (b rules_) name args = Some r
            /\ decide (b rules_) defaultAction name args = ruleAction r)
    [ addExecutionControlRules isSignalValid allowFork;
      addMemoryManagementRules;
      addSystemInformationRules;
      addFileSystemAccessRules readOnly;
      addInputOutputRules ].
Proof.
  assert (Hkeep : forall b : Builder, extends b ->
            firstMatch (b rules_) name args = Some r
            /\ decide (b rules_) defaultAction name args = ruleAction r).
  { intros b Hb.
    pose proof (extends_keeps_first_match b rules_ name args r Hb Hfirst) as H.
    split; [exact H|]. unfold decide. rewrite H. reflexivity. }
  repeat (apply Forall_cons;
          [ apply Hkeep;
            first [ apply extends_addExecutionControlRules
                  | apply extends_addMemoryManagementRules
                  | apply extends_addSystemInformationRules
                  | apply extends_addFileSystemAccessRules
                  | apply extends_addInputOutputRules ] |]).
  apply Forall_nil.
Qed.

Lemma rulesFor_unnamed (name : string) (l : Rules) :
  ~ In name (map syscall l) -> rulesFor name l = [].
Proof.
  intro Hname. induction l as [|r l IH]; [reflexivity|].
  simpl. destruct (String.eqb_spec (syscall r) name) as [E|_].
  - exfalso. apply Hname. left. exact E.
  - apply IH. intro H. apply Hname. right. exact H.
Qed.

Lemma extends_frame (b : Builder) (rules_ : Rules) (name : string) :
  extends b -> ~ In name (map syscall (b [])) ->
  rulesFor name (b rules_) = rulesFor name rules_.
Proof.
  intros Hb Hname.
  rewrite (Hb rules_), rulesFor_app, (rulesFor_unnamed name (b []) Hname).
  apply app_nil_r.
Qed.

(** X4: a builder changes nothing for a syscall it registers no rule for:
    whatever rules the policy already has, the rules registered for that
    syscall and the decision on its invocations are the same before and
    after the builder runs. *)
Theorem builders_leave_other_syscalls_alone
        (allowFork readOnly : bool) (rules_ : Rules)
        (defaultAction : SeccompAction) (name : string) (args : list Z) :
  Forall (fun b : Builder =>
            ~ In name (map syscall (b [])) ->
            rulesFor name (b rules_) = rulesFor name rules_
            /\ decide (b rules_) defaultAction name args
               = decide rules_ defaultAction name args)
    [ addExecutionControlRules isSignalValid allowFork;
      addMemoryManagementRules;
      addSystemInformationRules;
      addFileSystemAccessRules readOnly;
      addInputOutputRules ].
Proof.
  assert (Hframe : forall b : Builder, extends b ->
            ~ In name (map syscall (b [])) ->
            rulesFor name (b rules_) = rulesFor name rules_
            /\ decide (b rules_) defaultAction name args
               = decide rules_ defaultAction name args).
  { intros b Hb Hname.
    pose proof (extends_frame b rules_ name Hb Hname) as H.
    split; [exact H | apply decide_rulesFor; exact H]. }
  repeat (apply Forall_cons;
          [ apply Hframe;
            first [ apply extends_addExecutionControlRules
                  | apply extends_addMemoryManagementRules
                  | apply extends_addSystemInformationRules
                  | apply extends_addFileSystemAccessRules
                  | apply extends_addInputOutputRules ] |]).
  apply Forall_nil.
Qed.

End Builders.

(** * Further properties of the catalogue *)

Section Catalogue.

Variable isSignalValid : Z -> bool.

(** ** The order of the builder calls *)

Lemma rulesFor_concat (name : string) (gs : list Rules) :
  rulesFor name (List.concat gs) = List.concat (map (rulesFor name) gs).
Proof.
  induction gs as [|g gs IH]; [reflexivity|].
  simpl. rewrite rulesFor_app, IH. reflexivity.
Qed.

Lemma concat_nonEmpty (gs : list Rules) :
  List.concat gs = List.concat (List.filter nonEmpty gs).
Proof.
  induction gs as [|[|r g] gs IH]; simpl.
  - reflexivity.
  - exact IH.
  - rewrite IH. reflexivity.
Qed.

Lemma Permutation_filter_nonEmpty (gs gs' : list Rules) :
  Permutation gs gs' ->
  Permutation (List.filter nonEmpty gs) (List.filter nonEmpty gs').
Proof.
  induction 1 as [|g l l' _ IH|g1 g2 l|l l' l'' _ IH1 _ IH2]; simpl.
  - constructor.
  - destruct (nonEmpty g); [constructor|]; exact IH.
  - destruct (nonEmpty g1), (nonEmpty g2);
      first [apply perm_swap | apply Permutation_refl].
  - exact (perm_trans IH1 IH2).
Qed.

Lemma Permutation_at_most_one (gs gs' : list Rules) :
  Permutation gs gs' -> (List.length gs <= 1)%nat -> gs = gs'.
Proof.
  intros Hperm Hlen. destruct gs as [|g [|g' gs]]; simpl in Hlen.
  - symmetry. apply Permutation_nil. exact Hperm.
  - symmetry. apply Permutation_length_1_inv. exact Hperm.
  - lia.
Qed.

Lemma disjointNames_none (g1 g2 : Rules) (name : string) :
  disjointNames g1 g2 = true -> rulesFor name g1 <> [] -> rulesFor name g2 = [].
Proof.
  intros Hdisjoint Hsome. apply rulesFor_unnamed. intro Hin.
  apply Hsome. clear Hsome.
  unfold disjointNames in Hdisjoint. rewrite forallb_forall in Hdisjoint.
  induction g1 as [|r g1 IH]; [reflexivity|].
  simpl. destruct (String.eqb_spec (syscall r) name) as [E|_].
  - exfalso. pose proof (Hdisjoint r (or_introl eq_refl)) as Hr.
    assert (Hnamed : named (map syscall g2) r = true)
      by (apply named_In; rewrite E; exact Hin).
    rewrite Hnamed in Hr. discriminate Hr.
  - apply IH. intros x Hx. apply Hdisjoint. right. exact Hx.
Qed.

Lemma pairwiseDisjoint_at_most_one (gs : list Rules) (name : string) :
  pairwiseDisjoint gs = true ->
  (List.length (List.filter nonEmpty (map (rulesFor name) gs)) <= 1)%nat.
Proof.
  induction gs as [|g gs IH]; simpl; [lia|].
  intro H. apply andb_true_iff in H. destruct H as [Hg Hrest].
  destruct (rulesFor name g) as [|r l] eqn:E; simpl.
  - apply IH. exact Hrest.
  - assert (Hnone : List.filter nonEmpty (map (rulesFor name) gs) = []).
    { rewrite forallb_forall in Hg. clear IH Hrest.
      induction gs as [|g' gs IH]; [reflexivity|]. simpl.
      rewrite (disjointNames_none g g' name).
      - apply IH. intros x Hx. apply Hg. right. exact Hx.
      - apply Hg. left. reflexivity.
      - rewrite E. discriminate. }
    rewrite Hnone. simpl. lia.
Qed.

Lemma groups_pairwiseDisjoint (allowFork readOnly : bool) :
  pairwiseDisjoint (groups isSignalValid allowFork readOnly) = true.
Proof.
  destruct allowFork, readOnly; vm_compute; reflexivity.
Qed.

Lemma disjointNames_differ (g1 g2 : Rules) (r1 r2 : SeccompRule) :
  disjointNames g1 g2 = true -> In r1 g1 -> In r2 g2 ->
  syscall r1 <> syscall r2.
Proof.
  intros Hdisjoint H1 H2 E.
  unfold disjointNames in Hdisjoint. rewrite forallb_forall in Hdisjoint.
  pose proof (Hdisjoint r1 H1) as Hr1.
  assert (Hnamed : named (map syscall g2) r1 = true).
  { apply named_In. rewrite E. apply in_map. exact H2. }
  rewrite Hnamed in Hr1. discriminate Hr1.
Qed.

Lemma pairwiseDisjoint_differ (gs : list Rules) (i j : nat)
      (r1 r2 : SeccompRule) :
  pairwiseDisjoint gs = true -> (i < j)%nat ->
  In r1 (nth i gs []) -> In r2 (nth j gs []) ->
  syscall r1 <> syscall r2.
Proof.
  revert i j. induction gs as [|g gs IH]; intros i j Hgs Hij H1 H2.
  - destruct i; contradiction.
  - simpl in Hgs. apply andb_true_iff in Hgs. destruct Hgs as [Hg Hrest].
    destruct j as [|j]; [lia|]. destruct i as [|i]; simpl in H1, H2.
    + rewrite forallb_forall in Hg.
      destruct (Nat.lt_ge_cases j (List.length gs)) as [Hlt|Hge].
      * apply (disjointNames_differ g (nth j gs [])); try assumption.
        apply Hg. apply nth_In. exact Hlt.
      * rewrite (nth_overflow gs [] Hge) in H2. contradiction.
    + apply (IH i j); try assumption. lia.
Qed.

(** X5: no syscall has rules from two different builders, for either value
    of either switch; so the rules registered for a syscall, and the
    decision on every invocation, are the same in whatever order the five
    builders are called. *)
Theorem builder_call_order_changes_no_decision
        (allowFork readOnly : bool) (reordered : list Rules)
        (Hperm : Permutation (groups isSignalValid allowFork readOnly) reordered)
        (defaultAction : SeccompAction) (name : string) (args : list Z) :
  (forall (i j : nat) (r1 r2 : SeccompRule),
      i <> j ->
      In r1 (nth i (groups isSignalValid allowFork readOnly) []) ->
      In r2 (nth j (groups isSignalValid allowFork readOnly) []) ->
      syscall r1 <> syscall r2)
  /\ rulesFor name (List.concat reordered)
     = rulesFor name (policyRules isSignalValid allowFork readOnly)
  /\ decide (List.concat reordered) defaultAction name args
     = decide (policyRules isSignalValid allowFork readOnly)
         defaultAction name args.
Proof.
  split.
  { intros i j r1 r2 Hij H1 H2.
    pose proof (groups_pairwiseDisjoint allowFork readOnly) as Hgs.
    destruct (Nat.lt_gt_cases i j) as [Hcases _].
    destruct (Hcases Hij) as [Hlt|Hgt].
    - exact (pairwiseDisjoint_differ _ i j r1 r2 Hgs Hlt H1 H2).
    - intro E. symmetry in E.
      exact (pairwiseDisjoint_differ _ j i r2 r1 Hgs Hgt H2 H1 E). }
  assert (Hsame : rulesFor name (List.concat reordered)
                  = rulesFor name (policyRules isSignalValid allowFork readOnly)).
  { rewrite policyRules_groups, !rulesFor_concat.
    rewrite (concat_nonEmpty (map _ reordered)), (concat_nonEmpty (map _ (groups _ _ _))).
    f_equal. symmetry. apply Permutation_at_most_one.
    - apply Permutation_filter_nonEmpty, Permutation_map. exact Hperm.
    - apply pairwiseDisjoint_at_most_one, groups_pairwiseDisjoint. }
  split; [exact Hsame | apply decide_rulesFor; exact Hsame].
Qed.

(** ** Decisions of the catalogue *)

Lemma decide_first_rule (rules : Rules) (d : SeccompAction) (name : string)
      (args : list Z) (r : SeccompRule) :
  hd_error (rulesFor name rules) = Some r -> ruleFilter r = None ->
  decide rules d name args = ruleAction r.
Proof.
  intros Hrules Hfilter. unfold decide, firstMatch.
  destruct (rulesFor name rules) as [|r' rest]; [discriminate Hrules|].
  injection Hrules as ->.
  simpl. unfold matches. rewrite Hfilter. reflexivity.
Qed.

Lemma decide_no_rule (rules : Rules) (d : SeccompAction) (name : string)
      (args : list Z) :
  rulesFor name rules = [] ->
  firstMatch rules name args = None /\ decide rules d name args = d.
Proof.
  intro Hrules. unfold decide, firstMatch. rewrite Hrules. split; reflexivity.
Qed.

Ltac first_rule_decides :=
  lazymatch goal with
  | |- decide _ _ ?name _ = ?a =>
      refine (decide_first_rule _ _ _ _ (rule name a) _ _);
      [ repeat match goal with
               | b : bool |- _ => destruct b
               end;
        vm_compute; reflexivity
      | reflexivity ]
  end.

(** X6: for both values of both switches, every default action and every
    argument vector, each syscall the builders hand to allowSyscalls
    outside a switch is allowed: the thirteen of the execution-control
    list, the memory-management and system-information lists, the
    file-information list, and read, readv, dup, fcntl and fcntl64 on any
    descriptor. *)
Theorem listed_syscalls_are_always_allowed
        (allowFork readOnly : bool) (defaultAction : SeccompAction)
        (name : string) (args : list Z)
        (Hname : In name
           [ "restart_syscall"; "getpriority"; "setpriority"; "sigaction";
             "sigaltstack"; "rt_sigaction"; "rt_sigprocmask"; "futex";
             "set_tid_address"; "set_robust_list"; "getpid"; "getrandom";
             "sigsuspend";
             "brk"; "mmap"; "mmap2"; "munmap"; "mremap"; "mprotect";
             "arch_prctl";
             "getuid"; "getgid"; "geteuid"; "getegid"; "getrlimit";
             "ugetrlimit"; "getcpu"; "gettid"; "uname"; "olduname";
             "oldolduname"; "sysinfo"; "clock_gettime"; "gettimeofday"; "time";
             "stat"; "stat64"; "fstat"; "fstat64"; "lstat"; "lstat64";
             "listxattr"; "llistxattr"; "flistxattr"; "readlink"; "access";
             "getdents";
             "read"; "readv"; "dup"; "fcntl"; "fcntl64" ]) :
  decide (policyRules isSignalValid allowFork readOnly) defaultAction name args
  = ActionAllow
  /\ outcome (decide (policyRules isSignalValid allowFork readOnly)
                defaultAction name args) = Proceeds.
Proof.
  assert (H : decide (policyRules isSignalValid allowFork readOnly)
                defaultAction name args = ActionAllow).
  { simpl in Hname.
    repeat (destruct Hname as [E|Hname];
            [subst name; first_rule_decides|]).
    contradiction. }
  rewrite H. split; reflexivity.
Qed.

(** X7: with the file system read-only, unlink, unlinkat, symlink, mkdir and
    fsetxattr fail with EPERM for every argument vector, without running;
    with the file system writable, open, unlink, unlinkat, symlink and mkdir
    are allowed for every argument vector, and fsetxattr has no rule at
    all, so it gets the default action of the policy. *)
Theorem file_system_changes_follow_the_switch
        (allowFork : bool) (defaultAction : SeccompAction) (args : list Z) :
  (forall name,
      In name ["unlink"; "unlinkat"; "symlink"; "mkdir"; "fsetxattr"] ->
      decide (policyRules isSignalValid allowFork true) defaultAction name args
      = ActionErrno EPERM)
  /\ (forall name,
        In name ["open"; "unlink"; "unlinkat"; "symlink"; "mkdir"] ->
        decide (policyRules isSignalValid allowFork false) defaultAction name args
        = ActionAllow)
  /\ rulesFor "fsetxattr" (policyRules isSignalValid allowFork false) = []
  /\ decide (policyRules isSignalValid allowFork false) defaultAction
       "fsetxattr" args = defaultAction.
Proof.
  split; [|split; [|split]].
  - intros name Hname. simpl in Hname.
    repeat (destruct Hname as [E|Hname];
            [subst name; first_rule_decides|]).
    contradiction.
  - intros name Hname. simpl in Hname.
    repeat (destruct Hname as [E|Hname];
            [subst name; first_rule_decides|]).
    contradiction.
  - destruct allowFork; reflexivity.
  - apply decide_no_rule. destruct allowFork; reflexivity.
Qed.

(** X8: fork is allowed for every argument vector when the fork switch is
    on; when it is off the policy has no rule for fork and the default
    action applies.  prlimit64 fails with EPERM, and exit and exit_group
    are trace rules with no handler given, for both values of both
    switches. *)
Theorem fork_follows_the_switch_prlimit_never
        (readOnly : bool) (defaultAction : SeccompAction) (args : list Z) :
  decide (policyRules isSignalValid true readOnly) defaultAction "fork" args
  = ActionAllow
  /\ rulesFor "fork" (policyRules isSignalValid false readOnly) = []
  /\ decide (policyRules isSignalValid false readOnly) defaultAction "fork" args
     = defaultAction
  /\ (forall allowFork,
        decide (policyRules isSignalValid allowFork readOnly) defaultAction
          "prlimit64" args = ActionErrno EPERM
        /\ decide (policyRules isSignalValid allowFork readOnly) defaultAction
             "exit" args = ActionTrace None
        /\ decide (policyRules isSignalValid allowFork readOnly) defaultAction
             "exit_group" args = ActionTrace None).
Proof.
  split; [|split; [|split]].
  - first_rule_decides.
  - destruct readOnly; reflexivity.
  - apply decide_no_rule. destruct readOnly; reflexivity.
  - intro allowFork.
    repeat split; first_rule_decides.
Qed.

(** X9: close is allowed exactly on descriptors 3 and above, and dup2
    exactly when its target descriptor (argument 1) is 3 or above, whatever
    the descriptor it copies; on 0, 1 or 2 no rule matches and the default
    action applies.  This holds for both values of both switches. *)
Theorem close_and_dup2_spare_the_standard_descriptors
        (allowFork readOnly : bool) (defaultAction : SeccompAction)
        (fd oldfd newfd : Z) (rest : list Z) :
  let rules := policyRules isSignalValid allowFork readOnly in
  rulesFor "close" rules = [ruleWhen "close" ActionAllow (Ge (SyscallArg 0) 3)]
  /\ rulesFor "dup2" rules = [ruleWhen "dup2" ActionAllow (Ge (SyscallArg 1) 3)]
  /\ decide rules defaultAction "close" (fd :: rest)
     = (if 3 <=? fd then ActionAllow else defaultAction)
  /\ decide rules defaultAction "dup2" (oldfd :: newfd :: rest)
     = (if 3 <=? newfd then ActionAllow else defaultAction)
  /\ (In fd [0; 1; 2] ->
      firstMatch rules "close" (fd :: rest) = None
      /\ firstMatch rules "dup2" (oldfd :: fd :: rest) = None).
Proof.
  intro rules.
  assert (Hclose : rulesFor "close" rules
                   = [ruleWhen "close" ActionAllow (Ge (SyscallArg 0) 3)])
    by (subst rules; destruct allowFork, readOnly; reflexivity).
  assert (Hdup2 : rulesFor "dup2" rules
                  = [ruleWhen "dup2" ActionAllow (Ge (SyscallArg 1) 3)])
    by (subst rules; destruct allowFork, readOnly; reflexivity).
  split; [exact Hclose|]. split; [exact Hdup2|].
  unfold decide, firstMatch. rewrite Hclose, Hdup2.
  unfold find, matches; simpl. rewrite !Z.geb_leb.
  split; [destruct (3 <=? fd); reflexivity|].
  split; [destruct (3 <=? newfd); reflexivity|].
  intros [E|[E|[E|[]]]]; subst fd; split; reflexivity.
Qed.

(** ** What every rule of the catalogue is like *)

Ltac expand_policy :=
  repeat match goal with
         | b : bool |- _ => destruct b
         end;
  lazymatch goal with
  | |- Forall _ ?rules =>
      let l := eval vm_compute in rules in
      change rules with l
  end.

Ltac each_rule check :=
  expand_policy; repeat (apply Forall_cons; [check|]); apply Forall_nil.

(** X10: for both values of both switches, no rule of the policy has the
    action ActionKill; every trace rule is unconditional (it has no
    filter); the only error codes a rule returns are EPERM, ENOTTY and
    ESPIPE; and every filter is one comparison, on argument slot 0 or 1. *)
Theorem every_rule_is_of_a_few_kinds (allowFork readOnly : bool) :
  Forall (fun r =>
            ruleAction r <> ActionKill
            /\ (forall handler, ruleAction r = ActionTrace handler ->
                  ruleFilter r = None)
            /\ (forall code, ruleAction r = ActionErrno code ->
                  In code [EPERM; ENOTTY; ESPIPE])
            /\ (forall f, ruleFilter r = Some f ->
                  filterSlots f = [0%nat] \/ filterSlots f = [1%nat]))
    (policyRules isSignalValid allowFork readOnly).
Proof.
  each_rule
    ltac:(split; [discriminate|];
          split; [intros handler E; first [reflexivity | discriminate E]|];
          split; [intros code E; first [discriminate E
                                       | injection E as <-; simpl; tauto]|];
          intros f E; first [discriminate E
                            | injection E as <-; simpl; tauto]).
Qed.

Lemma firstMatch_some (rules : Rules) (name : string) (args : list Z)
      (r : SeccompRule) :
  firstMatch rules name args = Some r ->
  In r rules /\ syscall r = name /\ matches args r = true.
Proof.
  unfold firstMatch, rulesFor. intro H. apply find_some in H.
  destruct H as [Hin Hm]. apply filter_In in Hin. destruct Hin as [Hin Hname].
  apply String.eqb_eq in Hname. repeat split; assumption.
Qed.

Lemma trace_rules_names (allowFork readOnly : bool) :
  Forall (fun r => forall handler, ruleAction r = ActionTrace handler ->
            In (syscall r)
               ["set_thread_area"; "execve"; "kill"; "tkill"; "tgkill";
                "exit"; "exit_group"])
    (policyRules isSignalValid allowFork readOnly).
Proof.
  each_rule ltac:(intros handler E; first [discriminate E | simpl; tauto]).
Qed.

(** X11: for both values of both switches and every argument vector, the
    first matching rule is a trace rule exactly for set_thread_area,
    execve, kill, tkill, tgkill, exit and exit_group; so, under a default
    action that does not trace, these seven syscalls are the ones that
    suspend the caller for the tracer, and no other. *)
Theorem seven_syscalls_go_to_the_tracer
        (allowFork readOnly : bool) (name : string) (args : list Z) :
  let rules := policyRules isSignalValid allowFork readOnly in
  let traced := ["set_thread_area"; "execve"; "kill"; "tkill"; "tgkill";
                 "exit"; "exit_group"] in
  ((exists r handler, firstMatch rules name args = Some r
                      /\ ruleAction r = ActionTrace handler)
   <-> In name traced)
  /\ (forall defaultAction, outcome defaultAction <> Suspended ->
        (outcome (decide rules defaultAction name args) = Suspended
         <-> In name traced)).
Proof.
  intros rules traced.
  assert (Hiff : (exists r handler, firstMatch rules name args = Some r
                                    /\ ruleAction r = ActionTrace handler)
                 <-> In name traced).
  { split.
    - intros [r [handler [Hfirst Htrace]]].
      apply firstMatch_some in Hfirst. destruct Hfirst as [Hin [Hname _]].
      pose proof (trace_rules_names allowFork readOnly) as Hall.
      rewrite Forall_forall in Hall. rewrite <- Hname.
      exact (Hall r Hin handler Htrace).
    - intro Hname. subst traced rules. simpl in Hname.
      repeat (destruct Hname as [E|Hname];
              [subst name; eexists; eexists; unfold firstMatch;
               split; [destruct allowFork, readOnly; reflexivity
                      | reflexivity]|]).
      contradiction. }
  split; [exact Hiff|].
  intros defaultAction Hdefault. rewrite <- Hiff. unfold decide. split.
  - destruct (firstMatch rules name args) as [r|]; [|contradiction].
    intro Hout. exists r.
    destruct (ruleAction r) as [| | |handler]; try discriminate Hout.
    exists handler. split; reflexivity.
  - intros [r [handler [Hfirst Htrace]]]. rewrite Hfirst, Htrace. reflexivity.
Qed.

(** ** What a decision depends on *)

Lemma evaluate_same_slots (f : SyscallFilter) (args args' : list Z) :
  (forall i, In i (filterSlots f) -> nth i args 0 = nth i args' 0) ->
  evaluate f args = evaluate f args'.
Proof.
  induction f as [a v|a v|a v|a v|a v|a v|f IHf g IHg]; simpl; intro H;
    try (destruct a as [i|i mask]; simpl;
         rewrite (H i (or_introl eq_refl)); reflexivity).
  rewrite IHf, IHg; [reflexivity | |];
    intros i Hi; apply H; apply in_or_app; [right | left]; exact Hi.
Qed.

Lemma find_same {A : Type} (f g : A -> bool) (l : list A) :
  (forall x, In x l -> f x = g x) -> find f l = find g l.
Proof.
  induction l as [|x l IH]; intro H; [reflexivity|]. simpl.
  rewrite (H x (or_introl eq_refl)).
  destruct (g x); [reflexivity|]. apply IH. intros y Hy. apply H. right. exact Hy.
Qed.

Lemma filters_look_at_two_slots (allowFork readOnly : bool) :
  Forall (fun r => forall f, ruleFilter r = Some f ->
            forall i, In i (filterSlots f) -> i = 0%nat \/ i = 1%nat)
    (policyRules isSignalValid allowFork readOnly).
Proof.
  each_rule ltac:(intros f E;
                  first [discriminate E
                        | injection E as <-; simpl; intros i [<-|[]]; tauto]).
Qed.

(** X12: the decision of the policy looks at argument slots 0 and 1 only:
    two invocations of a syscall whose first two arguments are equal have
    the same first matching rule and get the same action, whatever their
    other arguments, for both values of both switches. *)
Theorem decisions_depend_on_two_arguments
        (allowFork readOnly : bool) (defaultAction : SeccompAction)
        (name : string) (args args' : list Z)
        (H0 : nth 0 args 0 = nth 0 args' 0)
        (H1 : nth 1 args 0 = nth 1 args' 0) :
  let rules := policyRules isSignalValid allowFork readOnly in
  firstMatch rules name args = firstMatch rules name args'
  /\ decide rules defaultAction name args = decide rules defaultAction name args'.
Proof.
  intro rules.
  assert (Hfirst : firstMatch rules name args = firstMatch rules name args').
  { unfold firstMatch. apply find_same. intros r Hr.
    apply filter_In in Hr. destruct Hr as [Hr _].
    pose proof (filters_look_at_two_slots allowFork readOnly) as Hall.
    rewrite Forall_forall in Hall. specialize (Hall r Hr).
    unfold matches. destruct (ruleFilter r) as [f|]; [|reflexivity].
    apply evaluate_same_slots. intros i Hi.
    destruct (Hall f eq_refl i Hi) as [E|E]; subst i; assumption. }
  split; [exact Hfirst|]. unfold decide. rewrite Hfirst. reflexivity.
Qed.

Lemma conditional_rules_names (allowFork readOnly : bool) :
  Forall (fun r => ruleFilter r <> None ->
            In (syscall r)
               ["write"; "writev"; "close"; "dup2"; "open"; "lseek"; "_llseek"])
    (policyRules isSignalValid allowFork readOnly).
Proof.
  each_rule ltac:(intro E; first [exfalso; apply E; reflexivity | simpl; tauto]).
Qed.

Ltac rules_of name :=
  let H := fresh "Hrules" in
  match goal with
  | |- context [policyRules ?isv ?a ?b] =>
      let l := eval vm_compute in (rulesFor name (policyRules isv a b)) in
      assert (H : rulesFor name (policyRules isv a b) = l)
        by (vm_compute; reflexivity)
  end.

(** X13: the default action is reached exactly in these cases: the policy
    has no rule for the syscall; write or writev on descriptor 0; close on
    a descriptor below 3; dup2 onto a target below 3; open with the O_RDWR
    bit set when the file system is read-only.  (The comparison for write
    is [argument 0 > 0]; of the unsigned values only 0 fails it.) *)
Theorem default_action_is_reached_exactly_when
        (allowFork readOnly : bool) (name : string) (args : list Z) :
  let rules := policyRules isSignalValid allowFork readOnly in
  let a0 := nth 0 args 0 in
  let a1 := nth 1 args 0 in
  firstMatch rules name args = None
  <-> rulesFor name rules = []
      \/ (In name ["write"; "writev"] /\ a0 <= 0)
      \/ (name = "close" /\ a0 < 3)
      \/ (name = "dup2" /\ a1 < 3)
      \/ (name = "open" /\ readOnly = true /\ Z.land a1 O_RDWR <> 0).
Proof.
  intros rules a0 a1. subst rules.
  destruct (in_dec string_dec name
              ["write"; "writev"; "close"; "dup2"; "open"; "lseek"; "_llseek"])
    as [Hcond|Hplain].
  - simpl in Hcond. unfold firstMatch.
    repeat (destruct Hcond as [E|Hcond];
            [subst name; destruct allowFork, readOnly;
             match goal with
             | |- context [rulesFor ?n _] => rules_of n
             end;
             rewrite !Hrules; unfold find, matches; simpl;
             fold a0; fold a1;
             rewrite ?Z.gtb_ltb, ?Z.geb_leb;
             repeat match goal with
                    | |- context [?x <? ?y] => destruct (Z.ltb_spec x y)
                    | |- context [?x <=? ?y] => destruct (Z.leb_spec x y)
                    | |- context [?x =? ?y] => destruct (Z.eqb_spec x y)
                    end;
             (split;
              [ intro Hnone; try discriminate Hnone; try (exfalso; lia);
                first
                  [ right; left; split; [solve [auto] | lia]
                  | right; right; left; split; [reflexivity | lia]
                  | right; right; right; left; split; [reflexivity | lia]
                  | right; right; right; right;
                    split; [reflexivity | split; [reflexivity | assumption]] ]
              | intro Hcase; try reflexivity; exfalso;
                repeat match goal with
                       | Hor : _ \/ _ |- _ => destruct Hor
                       | Hand : _ /\ _ |- _ => destruct Hand
                       end;
                first [discriminate | lia | contradiction] ])|]).
    contradiction.
  - assert (Hnone : forall r, In r (rulesFor name
                                      (policyRules isSignalValid allowFork readOnly)) ->
                      ruleFilter r = None).
    { intros r Hr. apply filter_In in Hr. destruct Hr as [Hr Hname].
      apply String.eqb_eq in Hname.
      pose proof (conditional_rules_names allowFork readOnly) as Hall.
      rewrite Forall_forall in Hall. specialize (Hall r Hr).
      destruct (ruleFilter r) as [f|]; [|reflexivity].
      exfalso. apply Hplain. rewrite <- Hname. apply Hall. discriminate. }
    unfold firstMatch. split.
    + intro H. left.
      destruct (rulesFor name (policyRules isSignalValid allowFork readOnly))
        as [|r l]; [reflexivity|].
      exfalso. simpl in H. unfold matches in H.
      rewrite (Hnone r (or_introl eq_refl)) in H. discriminate H.
    + intros [H|[[H _]|[[H _]|[[H _]|[H _]]]]].
      * rewrite H. reflexivity.
      * exfalso. apply Hplain. simpl in H. simpl. tauto.
      * exfalso. apply Hplain. subst name. simpl. tauto.
      * exfalso. apply Hplain. subst name. simpl. tauto.
      * exfalso. apply Hplain. subst name. simpl. tauto.
Qed.

(** ** The switches widen *)

Lemma readOnly_frame (allowFork : bool) (name : string) :
  ~ In name ["open"; "unlink"; "unlinkat"; "symlink"; "mkdir"; "fsetxattr"] ->
  rulesFor name (policyRules isSignalValid allowFork true)
  = rulesFor name (policyRules isSignalValid allowFork false).
Proof.
  intro Hname.
  assert (Hsplit : forall readOnly,
             policyRules isSignalValid allowFork readOnly
             = (addExecutionControlRules isSignalValid allowFork []
                ++ addMemoryManagementRules []
                ++ addSystemInformationRules []
                ++ firstn 13 (addFileSystemAccessRules true []))
               ++ skipn 13 (addFileSystemAccessRules readOnly [])
               ++ addInputOutputRules [])
    by (intro readOnly; destruct allowFork, readOnly; reflexivity).
  assert (Hown : forall readOnly,
             rulesFor name (skipn 13 (addFileSystemAccessRules readOnly [])) = []).
  { intro readOnly. apply rulesFor_unnamed.
    destruct readOnly; simpl; simpl in Hname; tauto. }
  rewrite (Hsplit true), (Hsplit false), !rulesFor_app, !Hown. reflexivity.
Qed.

Lemma allowFork_frame (readOnly : bool) (name : string) :
  name <> "fork" ->
  rulesFor name (policyRules isSignalValid true readOnly)
  = rulesFor name (policyRules isSignalValid false readOnly).
Proof.
  intro Hname.
  assert (Hsplit : forall allowFork,
             policyRules isSignalValid allowFork readOnly
             = firstn 21 (addExecutionControlRules isSignalValid false [])
               ++ (if allowFork then [rule "fork" ActionAllow] else [])
               ++ (skipn 21 (addExecutionControlRules isSignalValid false [])
                   ++ addMemoryManagementRules []
                   ++ addSystemInformationRules []
                   ++ addFileSystemAccessRules readOnly []
                   ++ addInputOutputRules []))
    by (intro allowFork; destruct allowFork, readOnly; reflexivity).
  assert (Hfork : rulesFor name [rule "fork" ActionAllow] = []).
  { apply rulesFor_unnamed. simpl. intros [E|[]].
    apply Hname. symmetry. exact E. }
  rewrite (Hsplit true), (Hsplit false).
  rewrite (rulesFor_app name _ ([rule "fork" ActionAllow] ++ _)),
    (rulesFor_app name [rule "fork" ActionAllow]), Hfork.
  rewrite (rulesFor_app name _ ([] ++ _)). reflexivity.
Qed.

(** X14: the switches only widen what is allowed.  An invocation allowed
    with the file system read-only is allowed with it writable, and an
    invocation allowed with fork off is allowed with fork on, for every
    syscall, argument vector and default action. *)
Theorem switches_only_widen
        (allowFork readOnly : bool) (defaultAction : SeccompAction)
        (name : string) (args : list Z) :
  (decide (policyRules isSignalValid allowFork true) defaultAction name args
   = ActionAllow ->
   decide (policyRules isSignalValid allowFork false) defaultAction name args
   = ActionAllow)
  /\ (decide (policyRules isSignalValid false readOnly) defaultAction name args
      = ActionAllow ->
      decide (policyRules isSignalValid true readOnly) defaultAction name args
      = ActionAllow).
Proof.
  split.
  - destruct (in_dec string_dec name
                ["open"; "unlink"; "unlinkat"; "symlink"; "mkdir"; "fsetxattr"])
      as [Hfs|Hother].
    + simpl in Hfs.
      destruct Hfs as [E|Hfs]; [subst name; intros _; first_rule_decides|].
      repeat (destruct Hfs as [E|Hfs];
              [ subst name; intro Hallowed; exfalso;
                match type of Hallowed with
                | decide ?rules ?d ?n ?a = _ =>
                    assert (Hdenied : decide rules d n a = ActionErrno EPERM)
                      by first_rule_decides;
                    rewrite Hdenied in Hallowed; discriminate Hallowed
                end |]).
      contradiction.
    + intro Hallowed. rewrite <- Hallowed. symmetry.
      apply decide_rulesFor, readOnly_frame. exact Hother.
  - destruct (string_dec name "fork") as [E|Hother].
    + subst name. intros _. first_rule_decides.
    + intro Hallowed. rewrite <- Hallowed.
      apply decide_rulesFor, allowFork_frame. exact Hother.
Qed.

End Catalogue.

(** * The further properties at concrete inputs *)

(** mmap already denied by an earlier rule stays denied after the
    memory-management builder adds its Allow rule for mmap. *)
Lemma builders_keep_the_deciding_rule_witness :
  firstMatch [rule "mmap" (ActionErrno EPERM)] "mmap" [0; 4096]
  = Some (rule "mmap" (ActionErrno EPERM))
  /\ decide (addMemoryManagementRules [rule "mmap" (ActionErrno EPERM)])
       ActionKill "mmap" [0; 4096]
     = ActionErrno EPERM.
Proof.
  assert (H : firstMatch [rule "mmap" (ActionErrno EPERM)] "mmap" [0; 4096]
              = Some (rule "mmap" (ActionErrno EPERM))) by reflexivity.
  split; [exact H|].
  exact (proj2 (Forall_inv (Forall_inv_tail
    (builders_keep_the_deciding_rule (fun _ => true) false true
       [rule "mmap" (ActionErrno EPERM)] ActionKill "mmap" [0; 4096]
       (rule "mmap" (ActionErrno EPERM)) H)))).
Defined.

(** The memory-management builder has no rule for ioctl. *)
Lemma builders_leave_other_syscalls_alone_witness :
  ~ In "ioctl" (map syscall (addMemoryManagementRules []))
  /\ decide (addMemoryManagementRules [rule "ioctl" ActionKill])
       ActionAllow "ioctl" []
     = decide [rule "ioctl" ActionKill] ActionAllow "ioctl" [].
Proof.
  assert (H : ~ In "ioctl" (map syscall (addMemoryManagementRules [])))
    by (simpl; intuition discriminate).
  split; [exact H|].
  exact (proj2 (Forall_inv (Forall_inv_tail
    (builders_leave_other_syscalls_alone (fun _ => true) false true
       [rule "ioctl" ActionKill] ActionAllow "ioctl" [])) H)).
Defined.

(** The five builders called in the reverse order. *)
Lemma builder_call_order_changes_no_decision_witness :
  Permutation (groups (fun _ => true) false true)
              (rev (groups (fun _ => true) false true))
  /\ decide (List.concat (rev (groups (fun _ => true) false true)))
       ActionKill "lseek" [1; 0; 0]
     = decide (policyRules (fun _ => true) false true)
         ActionKill "lseek" [1; 0; 0].
Proof.
  assert (H : Permutation (groups (fun _ => true) false true)
                          (rev (groups (fun _ => true) false true)))
    by apply Permutation_rev.
  split; [exact H|].
  exact (proj2 (proj2 (builder_call_order_changes_no_decision (fun _ => true)
                  false true _ H ActionKill "lseek" [1; 0; 0]))).
Defined.

(** read on descriptor 0. *)
Lemma listed_syscalls_are_always_allowed_witness :
  decide (policyRules (fun _ => true) false true) ActionKill "read" [0; 0; 512]
  = ActionAllow.
Proof.
  refine (proj1 (listed_syscalls_are_always_allowed (fun _ => true)
                   false true ActionKill "read" [0; 0; 512] _)).
  simpl. repeat (first [left; reflexivity | right]).
Defined.

(** unlink on a read-only file system. *)
Lemma file_system_changes_follow_the_switch_witness :
  decide (policyRules (fun _ => true) false true) ActionKill "unlink" [0]
  = ActionErrno EPERM.
Proof.
  refine (proj1 (file_system_changes_follow_the_switch (fun _ => true)
                   false ActionKill [0]) "unlink" _).
  simpl. auto.
Defined.

(** close on descriptor 1. *)
Lemma close_and_dup2_spare_the_standard_descriptors_witness :
  firstMatch (policyRules (fun _ => true) false true) "close" [1] = None.
Proof.
  refine (proj1 (proj2 (proj2 (proj2 (proj2
    (close_and_dup2_spare_the_standard_descriptors (fun _ => true)
       false true ActionKill 1 7 9 [])))) _)).
  simpl. auto.
Defined.

(** The execve rule of the policy is unconditional. *)
Lemma every_rule_is_of_a_few_kinds_witness :
  In (rule "execve" (ActionTrace (Some execveHandler)))
     (policyRules (fun _ => true) false true)
  /\ ruleFilter (rule "execve" (ActionTrace (Some execveHandler))) = None.
Proof.
  assert (H : In (rule "execve" (ActionTrace (Some execveHandler)))
                 (policyRules (fun _ => true) false true))
    by (vm_compute; repeat (first [left; reflexivity | right])).
  split; [exact H|].
  exact (proj1 (proj2
    (proj1 (Forall_forall _ _)
       (every_rule_is_of_a_few_kinds (fun _ => true) false true) _ H))
    (Some execveHandler) eq_refl).
Defined.

(** kill under the default action ActionKill. *)
Lemma seven_syscalls_go_to_the_tracer_witness :
  outcome ActionKill <> Suspended
  /\ outcome (decide (policyRules (fun _ => true) false true)
                ActionKill "kill" [1; 9]) = Suspended.
Proof.
  assert (H : outcome ActionKill <> Suspended) by discriminate.
  split; [exact H|].
  refine (proj2 (proj2 (seven_syscalls_go_to_the_tracer (fun _ => true)
                          false true "kill" [1; 9]) ActionKill H) _).
  simpl. auto.
Defined.

(** Two write calls on descriptor 1 with different buffers and lengths. *)
Lemma decisions_depend_on_two_arguments_witness :
  decide (policyRules (fun _ => true) false true) ActionKill "write" [1; 2; 3]
  = decide (policyRules (fun _ => true) false true) ActionKill "write" [1; 2; 99; 7].
Proof.
  exact (proj2 (decisions_depend_on_two_arguments (fun _ => true)
                  false true ActionKill "write" [1; 2; 3] [1; 2; 99; 7]
                  eq_refl eq_refl)).
Defined.

(** close on descriptor 2 reaches the default action. *)
Lemma default_action_is_reached_exactly_when_witness :
  firstMatch (policyRules (fun _ => true) false true) "close" [2] = None.
Proof.
  refine (proj2 (default_action_is_reached_exactly_when (fun _ => true)
                   false true "close" [2]) _).
  right. right. left. split; [reflexivity | simpl; lia].
Defined.

(** read is allowed with the file system read-only, hence with it
    writable. *)
Lemma switches_only_widen_witness :
  decide (policyRules (fun _ => true) false true) ActionKill "read" [0; 0; 1]
  = ActionAllow
  /\ decide (policyRules (fun _ => true) false false) ActionKill "read" [0; 0; 1]
     = ActionAllow.
Proof.
  assert (H : decide (policyRules (fun _ => true) false true)
                ActionKill "read" [0; 0; 1] = ActionAllow) by reflexivity.
  split; [exact H|].
  exact (proj1 (switches_only_widen (fun _ => true) false true
                  ActionKill "read" [0; 0; 1]) H).
Defined.
